(** * The Corefile forward-rule engine and the client cache, verified

    A shallow embedding of [pkg/models/coredns.go] (the rule model),
    [pkg/k8s/coredns.go] (parser, deletion, orchestration) and
    [pkg/k8s/client.go] (the per-cluster client cache), followed by the
    theorems about them.

    A Go [string] is a sequence of bytes: it is modelled as [list ascii].
    A [[]string] is a [list gostring]. *)

From Stdlib Require Import List Ascii String ZArith Lia Bool Arith.
From stdpp Require Import base gmap strings.
Import ListNotations.

Local Open Scope list_scope.
Local Open Scope bool_scope.

Definition gostring := list ascii.

(** String literals of the source. *)
Definition lit (s : string) : gostring := list_ascii_of_string s.
Arguments lit s%_string.

(** ** Package [strings] of the Go standard library

    Only the functions the repository calls, with the semantics of the Go
    documentation. *)
Module strings.

Definition eqb (a b : gostring) : bool := bool_decide (a = b).

(** [strings.HasPrefix(s, prefix)]. *)
Fixpoint HasPrefix (s prefix : gostring) {struct prefix} : bool :=
  match prefix, s with
  | [], _ => true
  | p :: prefix', c :: s' => Ascii.eqb c p && HasPrefix s' prefix'
  | _ :: _, [] => false
  end.

(** [strings.HasSuffix(s, suffix)]. *)
Definition HasSuffix (s suffix : gostring) : bool :=
  HasPrefix (rev s) (rev suffix).

(** [strings.TrimSuffix(s, suffix)]: [s] without the trailing [suffix], or
    [s] itself when it does not end with [suffix]. *)
Definition TrimSuffix (s suffix : gostring) : gostring :=
  if HasSuffix s suffix then firstn (length s - length suffix) s else s.

(** [strings.Contains(s, substr)]. *)
Fixpoint Contains (s substr : gostring) : bool :=
  HasPrefix s substr ||
  match s with
  | [] => false
  | _ :: s' => Contains s' substr
  end.

(** [strings.Count(s, substr)] for a one-byte [substr]: the number of
    occurrences of that byte.  Both calls of the repository pass a single
    brace. *)
Definition Count (s : gostring) (c : ascii) : Z :=
  Z.of_nat (length (List.filter (Ascii.eqb c) s)).

(** [strings.Split(s, sep)] for a one-byte separator: the pieces between the
    occurrences of [sep]; never the empty list.  The repository only splits
    on a newline. *)
Fixpoint Split (s : gostring) (sep : ascii) : list gostring :=
  match s with
  | [] => [[]]
  | c :: s' =>
      if Ascii.eqb c sep then [] :: Split s' sep
      else match Split s' sep with
           | [] => [[c]]
           | piece :: pieces => (c :: piece) :: pieces
           end
  end.

(** [strings.SplitN(s, sep, 2)] for a one-byte separator: [s] cut at the
    first [sep], or [s] alone when there is none. *)
Fixpoint SplitN2 (s : gostring) (sep : ascii) : list gostring :=
  match s with
  | [] => [[]]
  | c :: s' =>
      if Ascii.eqb c sep then [[]; s']
      else match SplitN2 s' sep with
           | [a; b] => [c :: a; b]
           | _ => [c :: s']
           end
  end.

(** [strings.Join(elems, sep)]. *)
Fixpoint Join (elems : list gostring) (sep : gostring) : gostring :=
  match elems with
  | [] => []
  | [e] => e
  | e :: elems' => e ++ sep ++ Join elems' sep
  end.

(** *** White space

    [TrimSpace] and [Fields] remove the runes for which [unicode.IsSpace]
    holds.  They decode UTF-8; a white-space rune is recognised exactly where
    its encoding occurs in the bytes: every encoding below starts with a byte
    that is not a continuation byte, so no multi-byte rune decoded before it
    can swallow it, and decoding backwards from the end of the string stops
    at its first byte.  Bytes that are not valid UTF-8 decode to U+FFFD,
    which is not white space. *)
Definition unicodeSpaces : list gostring :=
  [ ["009"]; ["010"]; ["011"]; ["012"]; ["013"]; [" "]   (* \t \n \v \f \r SP *)
  ; ["194"; "133"]                                       (* U+0085 *)
  ; ["194"; "160"]                                       (* U+00A0 *)
  ; ["225"; "154"; "128"]                                (* U+1680 *)
  ; ["226"; "128"; "128"]; ["226"; "128"; "129"]         (* U+2000 .. *)
  ; ["226"; "128"; "130"]; ["226"; "128"; "131"]
  ; ["226"; "128"; "132"]; ["226"; "128"; "133"]
  ; ["226"; "128"; "134"]; ["226"; "128"; "135"]
  ; ["226"; "128"; "136"]; ["226"; "128"; "137"]
  ; ["226"; "128"; "138"]                                (* .. U+200A *)
  ; ["226"; "128"; "168"]; ["226"; "128"; "169"]         (* U+2028 U+2029 *)
  ; ["226"; "128"; "175"]                                (* U+202F *)
  ; ["226"; "129"; "159"]                                (* U+205F *)
  ; ["227"; "128"; "128"] ]%char.                        (* U+3000 *)

(** Number of bytes of the white-space rune [s] starts with; 0 if it starts
    with none. *)
Definition spaceWidth (s : gostring) : nat :=
  match find (HasPrefix s) unicodeSpaces with
  | Some enc => length enc
  | None => 0
  end.

(** The same reading backwards: [r] is a reversed string. *)
Definition spaceWidthRev (r : gostring) : nat :=
  match find (fun enc => HasPrefix r (rev enc)) unicodeSpaces with
  | Some enc => length enc
  | None => 0
  end.

(** Drop leading white space; [skip] counts the bytes still to drop of the
    rune being removed. *)
Fixpoint trimWith (width : gostring -> nat) (skip : nat) (s : gostring) : gostring :=
  match s with
  | [] => []
  | _ :: s' =>
      match skip with
      | S k => trimWith width k s'
      | O => match width s with
             | O => s
             | S k => trimWith width k s'
             end
      end
  end.

Definition TrimLeftSpace (s : gostring) : gostring := trimWith spaceWidth 0 s.
Definition TrimRightSpace (s : gostring) : gostring :=
  rev (trimWith spaceWidthRev 0 (rev s)).

(** [strings.TrimSpace(s)]. *)
Definition TrimSpace (s : gostring) : gostring :=
  TrimRightSpace (TrimLeftSpace s).

(** [strings.Fields(s)]: the maximal runs of bytes between white-space
    runes.  [cur] is the field being read, reversed. *)
Definition flushField (cur : gostring) : list gostring :=
  match cur with
  | [] => []
  | _ => [rev cur]
  end.

Fixpoint fieldsFrom (skip : nat) (cur : gostring) (s : gostring) : list gostring :=
  match s with
  | [] => flushField cur
  | c :: s' =>
      match skip with
      | S k => fieldsFrom k cur s'
      | O => match spaceWidth s with
             | O => fieldsFrom 0 (c :: cur) s'
             | S k => flushField cur ++ fieldsFrom k [] s'
             end
      end
  end.

Definition Fields (s : gostring) : list gostring := fieldsFrom 0 [] s.

End strings.

(** ** Package [fmt]: [Sprintf] with string arguments

    The formats of the repository use the verbs [%s] and, in [Errorf], [%w]
    only.  An argument that is missing prints as [%!s(MISSING)], arguments
    left over are listed in a trailing [%!(EXTRA ...)], as package [fmt]
    does. *)
Module fmt.

Definition extra (args : list gostring) : gostring :=
  match args with
  | [] => []
  | _ => lit "%!(EXTRA "
         ++ strings.Join (map (fun a => lit "string=" ++ a) args) (lit ", ")
         ++ lit ")"
  end.

Fixpoint sprintf (verb : ascii -> bool) (format : gostring) (args : list gostring) : gostring :=
  match format with
  | [] => extra args
  | c :: rest =>
      if Ascii.eqb c "%" then
        match rest with
        | v :: rest' =>
            if verb v then
              match args with
              | a :: args' => a ++ sprintf verb rest' args'
              | [] => lit "%!" ++ [v] ++ lit "(MISSING)" ++ sprintf verb rest' []
              end
            else c :: sprintf verb rest args
        | [] => lit "%!(NOVERB)" ++ extra args
        end
      else c :: sprintf verb rest args
  end.

Definition Sprintf : gostring -> list gostring -> gostring :=
  sprintf (fun v => Ascii.eqb v "s").

(** [fmt.Errorf]: the message of the error built.  [%w] prints the message
    of the wrapped error. *)
Definition Errorf : gostring -> list gostring -> gostring :=
  sprintf (fun v => Ascii.eqb v "s" || Ascii.eqb v "w").

End fmt.

(** ** Package [models]: the forward rule ([pkg/models/coredns.go]) *)
Module models.

Record ForwardRule := {
  Namespace : gostring;
  ServiceName : gostring;
  TargetIP : gostring;
  IsFullFQDN : bool
}.

(** The newline of the raw string literals. *)
Definition nl : gostring := ["010"%char].

Definition GetFullName (r : ForwardRule) : gostring :=
  if negb (strings.eqb (ServiceName r) (lit "")) then
    ServiceName r ++ lit "." ++ Namespace r
  else Namespace r.

Definition GetFQDN (r : ForwardRule) : gostring :=
  GetFullName r ++ lit ".svc.cluster.local".

Definition GetDomainBlock (r : ForwardRule) : gostring :=
  if IsFullFQDN r then GetFQDN r ++ lit ":53"
  else GetFullName r ++ lit ":53".

Definition ToCorefile (r : ForwardRule) : gostring :=
  if IsFullFQDN r then
    let fqdn := GetFullName r ++ lit ".svc.cluster.local" in
    fmt.Sprintf (lit "%s:53 {" ++ nl ++
                 lit "    forward . %s" ++ nl ++
                 lit "}")
                [fqdn; TargetIP r]
  else
    let fullName := GetFullName r in
    let fullFQDN := fullName ++ lit ".svc.cluster.local." in
    if negb (strings.eqb (ServiceName r) (lit "")) then
      fmt.Sprintf (lit "%s:53 {" ++ nl ++
                   lit "    rewrite name exact %s %s answer auto" ++ nl ++
                   lit "    forward . %s" ++ nl ++
                   lit "}")
                  [fullName; fullName; fullFQDN; TargetIP r]
    else
      fmt.Sprintf (lit "%s:53 {" ++ nl ++
                   lit "    rewrite name regex (.*)\.%s %s.svc.cluster.local. answer auto" ++ nl ++
                   lit "    forward . %s" ++ nl ++
                   lit "}")
                  [Namespace r; Namespace r; Namespace r; TargetIP r].

(** [Cluster] ([pkg/models/cluster.go]); [CreatedAt] is not read by the code
    modelled here. *)
Record Cluster := {
  ID : gostring;
  Name : gostring;
  Kubeconfig : gostring
}.

(** [ParseNameInput] returns [(serviceName, namespace, isFullFQDN)]. *)
Definition ParseNameInput (input : gostring) : gostring * gostring * bool :=
  let input := strings.TrimSpace input in
  let isFullFQDN := strings.HasSuffix input (lit ".svc.cluster.local") in
  let input :=
    if isFullFQDN then strings.TrimSuffix input (lit ".svc.cluster.local")
    else input in
  match strings.SplitN2 input "." with
  | [part0; part1] => (part0, part1, isFullFQDN)
  | parts => (lit "", nth 0 parts [], isFullFQDN)
  end.

End models.

Import models.


(** ** Package [k8s] *)
Module k8s.

(** An [error] is modelled by its message. *)
Definition error := gostring.

(** What a call gives back: a value, an error, or a run-time panic. *)
Inductive result (A : Type) : Type :=
| Ok (a : A)
| Err (e : error)
| Panic (msg : gostring).
Arguments Ok {A} a.
Arguments Err {A} e.
Arguments Panic {A} msg.

(** *** The boundary: client-go and the API server

    [createClient] builds a [*kubernetes.Clientset] from the kubeconfig with
    three library calls that read nothing but their argument. *)
Class ClientGo := {
  Config : Type;
  base64_DecodeString : gostring -> result gostring;
  RESTConfigFromKubeConfig : gostring -> result Config;
  NewForConfig : Config -> option error
}.

(** A [*kubernetes.Clientset] is a pointer: two of them are the same handle
    iff they are the same address. *)
Definition Clientset := nat.

(** The objects of [kube-system] the handler reads.  [Data = None] is the
    nil map of a ConfigMap stored without data. *)
Record ConfigMap := { Data : option (gmap gostring gostring) }.
Record Service := { ClusterIP : gostring }.

Inductive Request :=
| ReqServerVersion
| ReqGetConfigMap
| ReqGetService
| ReqUpdateConfigMap (cm : ConfigMap).

(** The API server of the cluster the kubeconfig points at: what it answers
    now to each request of the handler, and the requests it has received.  A
    ConfigMap update that it accepts replaces the stored ConfigMap. *)
Record ApiServer := {
  serverVersion : option error;
  configMap : result ConfigMap;
  service : result Service;
  updateRefused : option error;
  requests : list Request
}.

(** [Manager]: the client cache.  The lock [mu] orders concurrent accesses
    and has no sequential effect. *)
Record Manager := { clients : gmap gostring Clientset }.

(** The state the package works on: the manager, the number of Clientsets
    constructed so far (the next one is allocated at that address), and the
    API server. *)
Record World := {
  manager : Manager;
  constructed : nat;
  api : ApiServer
}.

(** State and error monad. *)
Definition M (A : Type) : Type := World -> result A * World.

Definition ret {A} (a : A) : M A := fun w => (Ok a, w).
Definition fail {A} (e : error) : M A := fun w => (Err e, w).
Definition panic {A} (msg : gostring) : M A := fun w => (Panic msg, w).
Definition bind {A B} (m : M A) (k : A -> M B) : M B :=
  fun w => match m w with
           | (Ok a, w') => k a w'
           | (Err e, w') => (Err e, w')
           | (Panic msg, w') => (Panic msg, w')
           end.

Notation "'let*' x ':=' m 'in' k" := (bind m (fun x => k))
  (at level 10, x name, m at level 100, k at level 200).

(** Changes of the API server: a request is recorded, a ConfigMap stored. *)
Definition logged (rq : Request) (a : ApiServer) : ApiServer :=
  {| serverVersion := serverVersion a; configMap := configMap a;
     service := service a; updateRefused := updateRefused a;
     requests := requests a ++ [rq] |}.

Definition storing (cm : ConfigMap) (a : ApiServer) : ApiServer :=
  {| serverVersion := serverVersion a; configMap := Ok cm;
     service := service a; updateRefused := updateRefused a;
     requests := requests a |}.

Definition onApi (f : ApiServer -> ApiServer) (w : World) : World :=
  {| manager := manager w; constructed := constructed w; api := f (api w) |}.

Definition onClients (f : gmap gostring Clientset -> gmap gostring Clientset)
    (w : World) : World :=
  {| manager := {| clients := f (clients (manager w)) |};
     constructed := constructed w; api := api w |}.

(** A request to the API server: it is recorded, and answered. *)
Definition request {A} (rq : Request) (answer : ApiServer -> result A) : M A :=
  fun w => (answer (api w), onApi (logged rq) w).

Definition Discovery_ServerVersion (client : Clientset) : M unit :=
  request ReqServerVersion
    (fun a => match serverVersion a with None => Ok tt | Some e => Err e end).

Definition ConfigMaps_Get (client : Clientset) : M ConfigMap :=
  request ReqGetConfigMap configMap.

Definition Services_Get (client : Clientset) : M Service :=
  request ReqGetService service.

Definition ConfigMaps_Update (client : Clientset) (cm : ConfigMap) : M unit :=
  fun w =>
    match updateRefused (api w) with
    | None => (Ok tt, onApi (fun a => logged (ReqUpdateConfigMap cm) (storing cm a)) w)
    | Some e => (Err e, onApi (logged (ReqUpdateConfigMap cm)) w)
    end.

(** Wrap the error of a call: [fmt.Errorf("...: %w", err)]. *)
Definition wrap {A} (format : string) (m : M A) : M A :=
  fun w => match m w with
           | (Err e, w') => (Err (fmt.Errorf (lit format) [e]), w')
           | r => r
           end.

(** *** [client.go] *)
Section Client.
Context `{ClientGo}.

Definition lift {A} (format : string) (r : result A) : M A :=
  wrap format (fun w => (r, w)).

(** The Clientset [NewForConfig] returns is a new object. *)
Definition allocate : M Clientset :=
  fun w => (Ok (constructed w),
            {| manager := manager w; constructed := S (constructed w); api := api w |}).

Definition createClient (cluster : Cluster) : M Clientset :=
  let* kubeconfigData := lift "failed to decode kubeconfig: %w"
                           (base64_DecodeString (Kubeconfig cluster)) in
  let* config := lift "failed to build kubeconfig: %w"
                   (RESTConfigFromKubeConfig kubeconfigData) in
  let* _ := lift "failed to create kubernetes client: %w"
              (match NewForConfig config with Some e => Err e | None => Ok tt end) in
  allocate.

Definition GetClient (cluster : Cluster) : M Clientset :=
  fun w =>
    match clients (manager w) !! ID cluster with
    | Some client => (Ok client, w)
    | None =>
        (let* client := createClient cluster in
         fun w => (Ok client, onClients <[ID cluster := client]> w)) w
    end.

Definition RemoveClient (clusterID : gostring) : M unit :=
  fun w => (Ok tt, onClients (delete clusterID) w).

Definition TestConnection (cluster : Cluster) : M unit :=
  let* client := GetClient cluster in
  fun w =>
    match Discovery_ServerVersion client w with
    | (Err e, w') =>
        (let* _ := RemoveClient (ID cluster) in
         fail (fmt.Errorf (lit "failed to connect to cluster: %w") [e])) w'
    | r => r
    end.

End Client.

(** *** [coredns.go] *)
Definition CorefileName : gostring := lit "Corefile".

Record CoreDNSInfo := {
  info_ConfigMap : ConfigMap;
  info_Service : Service;
  Corefile : gostring;
  ServiceIP : gostring;
  ForwardRules : list ForwardRule
}.

(** The inner loop of [parseForwardRules],
    [for j := i + 1; j < len(lines) && j < i+10; j++]: [n] is the number of
    values of [j] below [i+10] still to visit. *)
Fixpoint lookForward (lines : list gostring) (j n : nat)
    (serviceName namespace : gostring) (isFullFQDN : bool)
    (rules : list ForwardRule) : list ForwardRule :=
  match n with
  | O => rules
  | S n' =>
      match nth_error lines j with
      | None => rules
      | Some l =>
          let forwardLine := strings.TrimSpace l in
          if strings.HasPrefix forwardLine (lit "forward .") then
            let forwardParts := strings.Fields forwardLine in
            if 3 <=? length forwardParts then
              rules ++ [ {| Namespace := namespace; ServiceName := serviceName;
                            TargetIP := nth 2 forwardParts [];
                            IsFullFQDN := isFullFQDN |} ]
            else rules
          else if strings.Contains forwardLine (lit "}") then rules
          else lookForward lines (S j) n' serviceName namespace isFullFQDN rules
      end
  end.

(** The domain part of a header line: what is left of the trimmed line
    without the brace, the space and the port. *)
Definition domainPartOf (trimmed : gostring) : gostring :=
  let domainPart := strings.TrimSuffix trimmed (lit "{") in
  let domainPart := strings.TrimSuffix domainPart (lit " ") in
  let domainPart := strings.TrimSuffix domainPart (lit ":53") in
  strings.TrimSpace domainPart.

(** The names in a domain part: [(serviceName, namespace, isFullFQDN)], from
    the FQDN format or the short one. *)
Definition domainNames (domainPart : gostring) : gostring * gostring * bool :=
  if strings.HasSuffix domainPart (lit ".svc.cluster.local") then
    let name := strings.TrimSuffix domainPart (lit ".svc.cluster.local") in
    let '(serviceName, namespace, _) := ParseNameInput name in
    (serviceName, namespace, true)
  else
    match strings.SplitN2 domainPart "." with
    | [part0; part1] => (part0, part1, false)
    | parts => (lit "", nth 0 parts [], false)
    end.

(** One iteration of the outer loop, for line [i]. *)
Definition parseLine (lines : list gostring) (i : nat) (line : gostring)
    (rules : list ForwardRule) : list ForwardRule :=
  let trimmed := strings.TrimSpace line in
  if negb (strings.Contains trimmed (lit ":53")) then rules
  else if negb (strings.HasSuffix trimmed (lit "{"))
          && negb (strings.HasSuffix trimmed (lit "{ ")) then rules
  else
    let domainPart := domainPartOf trimmed in
    if strings.eqb domainPart (lit "") || strings.eqb domainPart (lit ".")
       || strings.eqb domainPart (lit "cluster.local") then rules
    else
      let '(serviceName, namespace, isFullFQDN) := domainNames domainPart in
      if strings.eqb namespace (lit "") then rules
      else lookForward lines (i + 1) 9 serviceName namespace isFullFQDN rules.

Fixpoint parseLoop (lines : list gostring) (i : nat) (rest : list gostring)
    (rules : list ForwardRule) : list ForwardRule :=
  match rest with
  | [] => rules
  | line :: rest' => parseLoop lines (S i) rest' (parseLine lines i line rules)
  end.

Definition parseForwardRules (corefile : gostring) : list ForwardRule :=
  let lines := strings.Split corefile "010" in
  parseLoop lines 0 lines [].

(** The state of the loop of [DeleteForwardRule]. *)
Record deleteState := {
  newLines : list gostring;
  skipBlock : bool;
  braceCount : Z
}.

Definition deleteStep (ruleBlock : gostring) (st : deleteState) (line : gostring)
    : deleteState :=
  let trimmed := strings.TrimSpace line in
  let st :=
    if strings.HasPrefix trimmed ruleBlock
    then {| newLines := newLines st; skipBlock := true; braceCount := 0 |}
    else st in
  if skipBlock st then
    let braceCount := (braceCount st + strings.Count line "{")%Z in
    let braceCount := (braceCount - strings.Count line "}")%Z in
    if (braceCount <=? 0)%Z && strings.Contains line (lit "}")
    then {| newLines := newLines st; skipBlock := false; braceCount := braceCount |}
    else {| newLines := newLines st; skipBlock := true; braceCount := braceCount |}
  else
    {| newLines := newLines st ++ [line]; skipBlock := skipBlock st;
       braceCount := braceCount st |}.

Definition deleteLines (ruleBlock : gostring) (lines : list gostring) : list gostring :=
  newLines (fold_left (deleteStep ruleBlock) lines
              {| newLines := []; skipBlock := false; braceCount := 0 |}).

(** The header prefix [DeleteForwardRule] looks for. *)
Definition ruleBlockOf (name : gostring) (isFullFQDN : bool) : gostring :=
  let '(serviceName, namespace, _) := ParseNameInput name in
  let fullName :=
    if negb (strings.eqb serviceName (lit "")) then serviceName ++ lit "." ++ namespace
    else namespace in
  if isFullFQDN then fmt.Sprintf (lit "%s.svc.cluster.local:53") [fullName]
  else fmt.Sprintf (lit "%s:53") [fullName].

(** The text [DeleteForwardRule] writes back. *)
Definition deleteFromCorefile (corefile name : gostring) (isFullFQDN : bool) : gostring :=
  let ruleBlock := ruleBlockOf name isFullFQDN in
  let lines := strings.Split corefile "010" in
  strings.Join (deleteLines ruleBlock lines) nl.

Section Handler.
Context `{ClientGo}.

Definition GetCoreDNSInfo (cluster : Cluster) : M CoreDNSInfo :=
  let* client := GetClient cluster in
  let* configMap := wrap "failed to get coredns configmap: %w" (ConfigMaps_Get client) in
  let* service := wrap "failed to get kube-dns service: %w" (Services_Get client) in
  let corefile :=
    match Data configMap with
    | Some data => default [] (data !! CorefileName)
    | None => []
    end in
  ret {| info_ConfigMap := configMap; info_Service := service;
         Corefile := corefile; ServiceIP := ClusterIP service;
         ForwardRules := parseForwardRules corefile |}.

Definition UpdateCorefile (cluster : Cluster) (corefile : gostring) : M unit :=
  let* client := GetClient cluster in
  let* configMap := wrap "failed to get coredns configmap: %w" (ConfigMaps_Get client) in
  match Data configMap with
  | None => panic (lit "assignment to entry in nil map")
  | Some data =>
      wrap "failed to update coredns configmap: %w"
        (ConfigMaps_Update client {| Data := Some (<[CorefileName := corefile]> data) |})
  end.

Definition AddForwardRule (cluster : Cluster) (rule : ForwardRule) : M unit :=
  let* info := GetCoreDNSInfo cluster in
  if existsb (fun r => strings.eqb (GetFullName r) (GetFullName rule)) (ForwardRules info)
  then fail (fmt.Errorf (lit "forward rule for %s already exists") [GetFullName rule])
  else
    let newCorefile := Corefile info ++ nl ++ ToCorefile rule ++ nl in
    UpdateCorefile cluster newCorefile.

Definition DeleteForwardRule (cluster : Cluster) (name : gostring) (isFullFQDN : bool)
    : M unit :=
  let* info := GetCoreDNSInfo cluster in
  let newCorefile := deleteFromCorefile (Corefile info) name isFullFQDN in
  UpdateCorefile cluster newCorefile.

End Handler.

End k8s.

Import k8s.

(** ** Vocabulary of the statements *)

(** [s] holds a white-space rune: [strings.ContainsFunc(s, unicode.IsSpace)]. *)
Definition ContainsSpace (s : gostring) : bool :=
  existsb (strings.Contains s) strings.unicodeSpaces.

(** A byte below 128. *)
Definition isAscii (c : ascii) : bool := (N_of_ascii c <? 128)%N.

Definition asciiHead (s : gostring) : bool :=
  match s with
  | [] => true
  | c :: _ => isAscii c
  end.

Definition asciiLast (s : gostring) : bool := asciiHead (rev s).

(** A block of the grammar: the header line ending in an opening brace, the
    directives indented by four spaces, and the closing brace on a line of
    its own. *)
Definition block (header : gostring) (directives : list gostring) : gostring :=
  strings.Join
    ((header ++ lit " {") :: map (fun d => lit "    " ++ d) directives ++ [lit "}"])
    nl.

(** A line is a header for the prefix [ruleBlock] when its trimmed form
    starts with it. *)
Definition isHeader (ruleBlock line : gostring) : bool :=
  strings.HasPrefix (strings.TrimSpace line) ruleBlock.








Definition isLine (l : gostring) : bool := negb (strings.Contains l nl).

(** The state of the deletion loop while it copies lines. *)
Definition copying (acc : list gostring) (bc : Z) : deleteState :=
  {| newLines := acc; skipBlock := false; braceCount := bc |}.

(** The rules the parser emits for line [i] of [lines]. *)
Definition rulesOfLine (lines : list gostring) (i : nat) : list ForwardRule :=
  match nth_error lines i with
  | Some line => parseLine lines i line []
  | None => []
  end.

(** Every cached Clientset was constructed before. *)
Definition cacheOk (w : World) : Prop :=
  forall clusterID client,
    clients (manager w) !! clusterID = Some client -> client < constructed w.

(** A client-go whose three calls succeed on every kubeconfig. *)
Definition plainClientGo : ClientGo :=
  {| Config := gostring;
     base64_DecodeString := Ok;
     RESTConfigFromKubeConfig := Ok;
     NewForConfig := fun _ => None |}.

(** ** Inputs of the examples *)

(** A Corefile with the root zone and one FQDN rule. *)
Definition rootZone : list gostring :=
  [lit ".:53 {"; lit "    errors"; lit "}"].

Definition prodRule : ForwardRule :=
  {| Namespace := lit "prod"; ServiceName := lit "";
     TargetIP := lit "10.96.0.10"; IsFullFQDN := true |}.

Definition stagingRule : ForwardRule :=
  {| Namespace := lit "staging"; ServiceName := lit "";
     TargetIP := lit "10.96.0.20"; IsFullFQDN := false |}.

Definition mysqlRule : ForwardRule :=
  {| Namespace := lit "db"; ServiceName := lit "mysql";
     TargetIP := lit "10.96.0.30"; IsFullFQDN := false |}.

(** The service [cluster] of the namespace [local], in the short form. *)
Definition clusterLocalRule : ForwardRule :=
  {| Namespace := lit "local"; ServiceName := lit "cluster";
     TargetIP := lit "10.96.0.10"; IsFullFQDN := false |}.

(** A namespace with a closing brace in its name. *)
Definition braceRule : ForwardRule :=
  {| Namespace := lit "a}"; ServiceName := lit "";
     TargetIP := lit "10.96.0.10"; IsFullFQDN := false |}.

Definition scenario : gostring :=
  strings.Join (rootZone ++ strings.Split (ToCorefile prodRule) "010") nl.

Definition exampleCluster : Cluster :=
  {| ID := lit "c1"; Name := lit "cluster one"; Kubeconfig := lit "a3ViZWNvbmZpZw==" |}.

(** An API server that answers every request, holding [corefile]. *)
Definition exampleApi (corefile : gostring) : ApiServer :=
  {| serverVersion := None;
     configMap := Ok {| Data := Some {[ CorefileName := corefile ]} |};
     service := Ok {| ClusterIP := lit "10.96.0.10" |};
     updateRefused := None;
     requests := [] |}.

(** The world after [NewManager]: nothing cached, nothing constructed. *)
Definition exampleWorld (corefile : gostring) : World :=
  {| manager := {| clients := ∅ |}; constructed := 0; api := exampleApi corefile |}.

(** ** Package [handlers]: the rule of an add request

    [Handlers.AddForwardRule] ([pkg/handlers/handlers.go]) builds the rule
    from the two fields of the request body. *)
Definition ruleOfRequest (reqNamespace reqTargetIP : gostring) : ForwardRule :=
  let '(serviceName, namespace, isFullFQDN) := ParseNameInput reqNamespace in
  {| Namespace := namespace; ServiceName := serviceName;
     TargetIP := reqTargetIP; IsFullFQDN := isFullFQDN |}.

(** [NewManager]: no client yet. *)
Definition NewManager : Manager := {| clients := ∅ |}.

(** A computation keeps the invariant of the cache. *)
Definition keepsCache {A} (m : M A) : Prop :=
  forall w r w', cacheOk w -> m w = (r, w') -> cacheOk w'.

(** The requests sent by a read of the CoreDNS objects. *)
Definition isRead (rq : Request) : bool :=
  match rq with
  | ReqGetConfigMap | ReqGetService => true
  | _ => false
  end.

(** A client-go that decodes no kubeconfig. *)
Definition rejectingClientGo : ClientGo :=
  {| Config := gostring;
     base64_DecodeString := fun _ => Err (lit "illegal base64 data at input byte 0");
     RESTConfigFromKubeConfig := Ok;
     NewForConfig := fun _ => None |}.

(** The world after [NewManager] with a ConfigMap stored without data. *)
Definition nilMapWorld : World :=
  {| manager := NewManager; constructed := 0;
     api := {| serverVersion := None;
               configMap := Ok {| Data := None |};
               service := Ok {| ClusterIP := lit "10.96.0.10" |};
               updateRefused := None;
               requests := [] |} |}.

(** The world after [NewManager] with an API server that refuses updates. *)
Definition refusingWorld (corefile : gostring) : World :=
  {| manager := NewManager; constructed := 0;
     api := {| serverVersion := None;
               configMap := Ok {| Data := Some {[ CorefileName := corefile ]} |};
               service := Ok {| ClusterIP := lit "10.96.0.10" |};
               updateRefused := Some (lit "configmaps is forbidden");
               requests := [] |} |}.

(** ** Package [store] ([pkg/store/store.go])

    The clusters are kept in a slice and written to [clusters.json] after
    every change.  The mutex is not modelled: each operation holds it from
    its first to its last statement, so that operations run one after the
    other. *)
Module store.

(** The boundary: [path/filepath], [encoding/json] and [uuid].
    [json_MarshalIndent] returns the pair [(data, err)] of the Go call;
    [uuid_New_String n] is the identifier of the [n]-th draw. *)
Class Os := {
  filepath_Join : gostring -> gostring -> gostring;
  json_MarshalIndent : list Cluster -> gostring * option error;
  uuid_New_String : nat -> gostring
}.

(** The fields [dataDir] and [clusters] of the [Store], with the files of
    the file system, the error of a [WriteFile] that is refused when it
    opens the file, and the number of identifiers drawn so far. *)
Record State := {
  dataDir : gostring;
  clusters : list Cluster;
  files : gmap gostring gostring;
  writeRefused : option error;
  drawn : nat
}.

Section Store.
Context `{Os}.

Definition clustersFile (s : State) : gostring :=
  filepath_Join (dataDir s) (lit "clusters.json").

Definition withClusters (l : list Cluster) (s : State) : State :=
  {| dataDir := dataDir s; clusters := l; files := files s;
     writeRefused := writeRefused s; drawn := drawn s |}.

Definition os_WriteFile (name data : gostring) (s : State) : option error * State :=
  match writeRefused s with
  | Some err => (Some err, s)
  | None =>
      (None, {| dataDir := dataDir s; clusters := clusters s;
                files := <[name := data]> (files s);
                writeRefused := writeRefused s; drawn := drawn s |})
  end.

Definition save (s : State) : option error * State :=
  let '(data, err) := json_MarshalIndent (clusters s) in
  match err with
  | Some e => (Some e, s)
  | None => os_WriteFile (clustersFile s) data s
  end.

(** [GetClusters] returns a copy of the slice. *)
Definition GetClusters (s : State) : list Cluster := clusters s.

(** The index and the value of the first cluster with the identifier: the
    loop [for i, c := range s.clusters] up to its first [c.ID == id]. *)
Definition firstWithID (id : gostring) (l : list Cluster) : option (nat * Cluster) :=
  list_find (fun c => ID c = id) l.

(** [GetCluster] returns [(&c, true)] as [Some c] and [(nil, false)] as
    [None]; [c] is the loop variable, a copy of the element. *)
Definition GetCluster (id : gostring) (s : State) : option Cluster :=
  match firstWithID id (clusters s) with
  | Some (_, c) => Some c
  | None => None
  end.

Definition uuid_New (s : State) : gostring * State :=
  (uuid_New_String (drawn s),
   {| dataDir := dataDir s; clusters := clusters s; files := files s;
      writeRefused := writeRefused s; drawn := S (drawn s) |}).

Definition AddCluster (cluster : Cluster) (s : State) : option error * State :=
  let '(cluster, s) :=
    if strings.eqb (ID cluster) (lit "")
    then let '(id, s) := uuid_New s in
         ({| ID := id; Name := Name cluster; Kubeconfig := Kubeconfig cluster |}, s)
    else (cluster, s) in
  save (withClusters (clusters s ++ [cluster]) s).

Definition DeleteCluster (id : gostring) (s : State) : option error * State :=
  match firstWithID id (clusters s) with
  | Some (i, _) =>
      save (withClusters (take i (clusters s) ++ drop (i + 1) (clusters s)) s)
  | None => (None, s)
  end.

Definition UpdateCluster (cluster : Cluster) (s : State) : option error * State :=
  match firstWithID (ID cluster) (clusters s) with
  | Some (i, _) => save (withClusters (<[i := cluster]> (clusters s)) s)
  | None => (None, s)
  end.

End Store.

End store.

(** A boundary for the examples: the file is named by concatenation, the
    clusters are marshalled to the list of their identifiers, and the
    [n]-th identifier drawn is [n] letters [u]. *)
Definition plainOs : store.Os :=
  {| store.filepath_Join := fun dir name => dir ++ lit "/" ++ name;
     store.json_MarshalIndent :=
       fun l => (strings.Join (List.map ID l) (lit ","), None);
     store.uuid_New_String := fun n => repeat "u"%char (S n) |}.

Definition otherCluster : Cluster :=
  {| ID := lit "c2"; Name := lit "cluster two"; Kubeconfig := lit "a3ViZWNvbmZpZw==" |}.

Definition exampleStore : store.State :=
  {| store.dataDir := lit "data";
     store.clusters := [exampleCluster; otherCluster];
     store.files := ∅;
     store.writeRefused := None;
     store.drawn := 0 |}.

(** The same store on a file system that refuses to write. *)
Definition readOnlyStore : store.State :=
  {| store.dataDir := lit "data";
     store.clusters := [exampleCluster; otherCluster];
     store.files := ∅;
     store.writeRefused := Some (lit "read-only file system");
     store.drawn := 0 |}.

(** The file of the clusters holds what the memory marshals to. *)
Definition synced `{store.Os} (s : store.State) : Prop :=
  store.files s !! store.clustersFile s
  = Some (fst (store.json_MarshalIndent (store.clusters s))).

(** A cluster with the identifier of [exampleCluster], and [otherCluster]
    under a new name. *)
Definition shadowedCluster : Cluster :=
  {| ID := lit "c1"; Name := lit "cluster one again"; Kubeconfig := lit "a3ViZQ==" |}.

Definition renamedCluster : Cluster :=
  {| ID := lit "c2"; Name := lit "cluster two renamed"; Kubeconfig := lit "a3ViZWNvbmZpZw==" |}.
Example HasSuffix_ex : strings.HasSuffix (lit "prod:53 {") (lit "{") = true.
Proof. reflexivity. Qed.

Example TrimSuffix_ex : strings.TrimSuffix (lit "prod:53 {") (lit " {") = lit "prod:53".
Proof. reflexivity. Qed.

Example Split_ex : strings.Split (lit "a.b..c.") "." = [lit "a"; lit "b"; lit ""; lit "c"; lit ""].
Proof. reflexivity. Qed.

Example SplitN2_ex : strings.SplitN2 (lit "a.b.c") "." = [lit "a"; lit "b.c"].
Proof. reflexivity. Qed.

Example SplitN2_ex0 : strings.SplitN2 (lit "abc") "." = [lit "abc"].
Proof. reflexivity. Qed.

Example TrimSpace_ex : strings.TrimSpace (" " :: "194" :: "160" :: lit "a b" ++ ["009"; "226"; "128"; "168"; "010"])%char = lit "a b".
Proof. vm_compute. reflexivity. Qed.

Example Fields_ex : strings.Fields (lit "  forward  . 10.0.0.1 x ") = [lit "forward"; lit "."; lit "10.0.0.1"; lit "x"].
Proof. vm_compute. reflexivity. Qed.

Example Join_ex : strings.Join [lit "a"; lit ""; lit "b"] (lit "-") = lit "a--b".
Proof. reflexivity. Qed.

Example ToCorefile_staging :
  ToCorefile {| Namespace := lit "staging"; ServiceName := lit "";
                TargetIP := lit "10.96.0.20"; IsFullFQDN := false |}
  = lit "staging:53 {" ++ nl ++
    lit "    rewrite name regex (.*)\.staging staging.svc.cluster.local. answer auto" ++ nl ++
    lit "    forward . 10.96.0.20" ++ nl ++
    lit "}".
Proof. vm_compute. reflexivity. Qed.

Example ParseNameInput_ex1 :
  ParseNameInput (lit " mysql.db.svc.cluster.local ") = (lit "mysql", lit "db", true).
Proof. vm_compute. reflexivity. Qed.

Example ParseNameInput_ex2 : ParseNameInput (lit "prod") = (lit "", lit "prod", false).
Proof. vm_compute. reflexivity. Qed.

Example ParseNameInput_ex3 : ParseNameInput (lit "a.b.c") = (lit "a", lit "b.c", false).
Proof. vm_compute. reflexivity. Qed.

(** * Facts about the string functions *)
Module strings_facts.
Import strings.

Lemma eqb_true (a b : gostring) : eqb a b = true <-> a = b.
Proof. unfold eqb. apply bool_decide_eq_true. Qed.

Lemma eqb_false (a b : gostring) : eqb a b = false <-> a <> b.
Proof. unfold eqb. apply bool_decide_eq_false. Qed.

Lemma eqb_refl (a : gostring) : eqb a a = true.
Proof. now apply eqb_true. Qed.

Lemma HasPrefix_nil (s : gostring) : HasPrefix s [] = true.
Proof. now destruct s. Qed.

Lemma HasPrefix_spec (s p : gostring) :
  HasPrefix s p = true <-> exists t, s = p ++ t.
Proof.
  revert s. induction p as [|c p IH]; intros s.
  - rewrite HasPrefix_nil. split; [exists s; reflexivity | trivial].
  - destruct s as [|d s]; simpl.
    + split; [discriminate | intros [t Ht]; discriminate].
    + rewrite andb_true_iff, Ascii.eqb_eq, IH. split.
      * intros [-> [t ->]]. now exists t.
      * intros [t Ht]. injection Ht as -> ->. split; [reflexivity | now exists t].
Qed.

Lemma HasPrefix_app (p t : gostring) : HasPrefix (p ++ t) p = true.
Proof. apply HasPrefix_spec. now exists t. Qed.

Lemma HasPrefix_false (s p : gostring) :
  HasPrefix s p = false <-> forall t, s <> p ++ t.
Proof.
  rewrite <- not_true_iff_false, HasPrefix_spec. split.
  - intros Hn t Ht. apply Hn. now exists t.
  - intros Hn [t Ht]. now apply (Hn t).
Qed.

Lemma HasSuffix_spec (s suf : gostring) :
  HasSuffix s suf = true <-> exists t, s = t ++ suf.
Proof.
  unfold HasSuffix. rewrite HasPrefix_spec. split.
  - intros [t Ht]. exists (rev t).
    rewrite <- (rev_involutive s), Ht, rev_app_distr, rev_involutive. reflexivity.
  - intros [t ->]. exists (rev t). apply rev_app_distr.
Qed.

Lemma HasSuffix_app (t suf : gostring) : HasSuffix (t ++ suf) suf = true.
Proof. apply HasSuffix_spec. now exists t. Qed.

Lemma HasSuffix_false (s suf : gostring) :
  HasSuffix s suf = false <-> forall t, s <> t ++ suf.
Proof.
  rewrite <- not_true_iff_false, HasSuffix_spec. split.
  - intros Hn t Ht. apply Hn. now exists t.
  - intros Hn [t Ht]. now apply (Hn t).
Qed.

Lemma TrimSuffix_app (t suf : gostring) : TrimSuffix (t ++ suf) suf = t.
Proof.
  unfold TrimSuffix. rewrite HasSuffix_app, length_app.
  replace (length t + length suf - length suf) with (length t + 0) by lia.
  rewrite firstn_app_2. simpl. apply app_nil_r.
Qed.

Lemma TrimSuffix_none (s suf : gostring) :
  HasSuffix s suf = false -> TrimSuffix s suf = s.
Proof. unfold TrimSuffix. now intros ->. Qed.

Lemma Contains_spec (s sub : gostring) :
  Contains s sub = true <-> exists a b, s = a ++ sub ++ b.
Proof.
  induction s as [|c s IH]; cbn [Contains].
  - rewrite orb_false_r, HasPrefix_spec. split.
    + intros [t Ht]. now exists [], t.
    + intros [a [b Hab]]. destruct a; [now exists b | discriminate].
  - rewrite orb_true_iff, HasPrefix_spec, IH. split.
    + intros [[t Ht] | [a [b ->]]]; [now exists [], t | now exists (c :: a), b].
    + intros [[|d a] [b Hab]]; [left; now exists b |].
      injection Hab as -> ->. right. now exists a, b.
Qed.

Lemma Contains_false (s sub : gostring) :
  Contains s sub = false <-> forall a b, s <> a ++ sub ++ b.
Proof.
  rewrite <- not_true_iff_false, Contains_spec. split.
  - intros Hn a b Hab. apply Hn. now exists a, b.
  - intros Hn [a [b Hab]]. now apply (Hn a b).
Qed.

(** Containing a single byte. *)
Lemma Contains_byte (s : gostring) (c : ascii) :
  Contains s [c] = existsb (Ascii.eqb c) s.
Proof.
  induction s as [|d s IH]; simpl; [reflexivity |].
  rewrite IH, andb_true_r, (Ascii.eqb_sym d c). reflexivity.
Qed.

Lemma Contains_byte_app (s t : gostring) (c : ascii) :
  Contains (s ++ t) [c] = Contains s [c] || Contains t [c].
Proof. rewrite !Contains_byte. apply existsb_app. Qed.

Lemma Contains_app_l (s t sub : gostring) :
  Contains s sub = true -> Contains (s ++ t) sub = true.
Proof.
  rewrite !Contains_spec. intros [a [b ->]]. exists a, (b ++ t).
  now rewrite <- ?app_assoc.
Qed.

Lemma Contains_app_r (s t sub : gostring) :
  Contains t sub = true -> Contains (s ++ t) sub = true.
Proof.
  rewrite !Contains_spec. intros [a [b ->]]. exists (s ++ a), b.
  now rewrite <- ?app_assoc.
Qed.

Lemma HasPrefix_Contains (s sub : gostring) :
  HasPrefix s sub = true -> Contains s sub = true.
Proof. destruct s; simpl; intros ->; reflexivity. Qed.

Lemma Count_app (s t : gostring) (c : ascii) :
  Count (s ++ t) c = (Count s c + Count t c)%Z.
Proof. unfold Count. rewrite List.filter_app, length_app. lia. Qed.

Lemma Count_nonneg (s : gostring) (c : ascii) : (0 <= Count s c)%Z.
Proof. unfold Count. lia. Qed.

Lemma Count_zero (s : gostring) (c : ascii) :
  Contains s [c] = false -> Count s c = 0%Z.
Proof.
  rewrite Contains_byte. unfold Count. induction s as [|d s IH]; simpl; [reflexivity |].
  rewrite orb_false_iff. intros [-> Hs]. now apply IH.
Qed.

(** [Split] and [Join] *)
Lemma Split_not_nil (s : gostring) (sep : ascii) : Split s sep <> [].
Proof.
  induction s as [|c s IH]; simpl; [discriminate |].
  destruct (Ascii.eqb c sep); [discriminate |].
  destruct (Split s sep); [congruence | discriminate].
Qed.

Lemma Join_cons (e : gostring) (elems : list gostring) (sep : gostring) :
  elems <> [] -> Join (e :: elems) sep = e ++ sep ++ Join elems sep.
Proof. destruct elems; [congruence | reflexivity]. Qed.

Lemma Join_Split (s : gostring) (sep : ascii) : Join (Split s sep) [sep] = s.
Proof.
  induction s as [|c s IH]; simpl; [reflexivity |].
  destruct (Ascii.eqb_spec c sep) as [-> | Hne].
  - rewrite Join_cons by apply Split_not_nil. simpl. now rewrite IH.
  - pose proof (Split_not_nil s sep) as Hnn.
    destruct (Split s sep) as [|piece pieces]; [congruence |].
    destruct pieces as [|p2 pieces].
    + simpl in *. now rewrite IH.
    + change (Join ((c :: piece) :: p2 :: pieces) [sep])
        with (c :: (piece ++ [sep] ++ Join (p2 :: pieces) [sep])).
      f_equal. exact IH.
Qed.

Lemma Split_no_sep (s : gostring) (sep : ascii) :
  Contains s [sep] = false -> Split s sep = [s].
Proof.
  rewrite Contains_byte. induction s as [|c s IH]; simpl; [reflexivity |].
  rewrite orb_false_iff. intros [Hc Hs]. rewrite Ascii.eqb_sym, Hc, (IH Hs). reflexivity.
Qed.

Lemma Split_app (s t : gostring) (sep : ascii) :
  Contains s [sep] = false ->
  Split (s ++ sep :: t) sep = s :: Split t sep.
Proof.
  rewrite Contains_byte. induction s as [|c s IH]; simpl.
  - intros _. now rewrite Ascii.eqb_refl.
  - rewrite orb_false_iff. intros [Hc Hs]. rewrite Ascii.eqb_sym, Hc, (IH Hs). reflexivity.
Qed.

Lemma Split_Join (lines : list gostring) (sep : ascii) :
  lines <> [] -> Forall (fun l => Contains l [sep] = false) lines ->
  Split (Join lines [sep]) sep = lines.
Proof.
  induction lines as [|l lines IH]; [congruence |]. intros _ Hall.
  inversion Hall as [|? ? Hl Hrest]; subst.
  destruct lines as [|l2 lines].
  - simpl. now apply Split_no_sep.
  - rewrite Join_cons by discriminate. simpl app.
    rewrite Split_app by assumption. f_equal. apply IH; [discriminate | assumption].
Qed.

Lemma Split_lines_no_sep (s : gostring) (sep : ascii) :
  Forall (fun l => Contains l [sep] = false) (Split s sep).
Proof.
  induction s as [|c s IH]; simpl.
  - constructor; [reflexivity | constructor].
  - destruct (Ascii.eqb_spec c sep) as [-> | Hne].
    + constructor; [reflexivity | assumption].
    + pose proof (Split_not_nil s sep) as Hnn.
      destruct (Split s sep) as [|piece pieces]; [congruence |].
      inversion IH as [|? ? Hp Hrest]; subst. constructor; [| assumption].
      rewrite Contains_byte in *. simpl. rewrite Hp, orb_false_r.
      apply Ascii.eqb_neq. congruence.
Qed.

(** [SplitN2] *)
Lemma SplitN2_no_sep (s : gostring) (sep : ascii) :
  Contains s [sep] = false -> SplitN2 s sep = [s].
Proof.
  rewrite Contains_byte. induction s as [|c s IH]; simpl; [reflexivity |].
  rewrite orb_false_iff. intros [Hc Hs]. rewrite Ascii.eqb_sym, Hc, (IH Hs). reflexivity.
Qed.

Lemma SplitN2_first (a b : gostring) (sep : ascii) :
  Contains a [sep] = false -> SplitN2 (a ++ sep :: b) sep = [a; b].
Proof.
  rewrite Contains_byte. induction a as [|c a IH]; simpl.
  - intros _. now rewrite Ascii.eqb_refl.
  - rewrite orb_false_iff. intros [Hc Ha]. rewrite Ascii.eqb_sym, Hc, (IH Ha). reflexivity.
Qed.

(** Every string is cut at its first separator, or has none. *)
Lemma first_sep (s : gostring) (sep : ascii) :
  Contains s [sep] = false \/
  exists a b, s = a ++ sep :: b /\ Contains a [sep] = false.
Proof.
  induction s as [|c s IH]; [now left |].
  destruct (Ascii.eqb_spec c sep) as [-> | Hne].
  - right. now exists [], s.
  - destruct IH as [Hs | [a [b [-> Ha]]]].
    + left. rewrite Contains_byte in *. simpl. rewrite Hs, orb_false_r.
      apply Ascii.eqb_neq. congruence.
    + right. exists (c :: a), b. split; [reflexivity |].
      rewrite Contains_byte in *. simpl. rewrite Ha, orb_false_r.
      apply Ascii.eqb_neq. congruence.
Qed.

End strings_facts.

(** Appends to the right, conses pushed through. *)
Ltac app_norm := repeat (progress (cbn [app]; rewrite <- ?app_assoc)).

(** * White space *)
Module space_facts.
Import strings strings_facts.

(** The shape of the encodings: one byte, or bytes above 127 only. *)
Lemma unicodeSpaces_shape :
  Forall (fun enc => length enc = 1 \/ forallb (fun c => negb (isAscii c)) enc = true)
         unicodeSpaces.
Proof.
  apply List.Forall_forall. intros enc Hin.
  assert (Hb : forallb (fun enc => (length enc =? 1)
                          || forallb (fun c => negb (isAscii c)) enc)
                       unicodeSpaces = true) by (vm_compute; reflexivity).
  rewrite forallb_forall in Hb. specialize (Hb enc Hin).
  apply orb_true_iff in Hb as [Hb | Hb]; [left; now apply Nat.eqb_eq | now right].
Qed.

Lemma unicodeSpaces_not_nil : Forall (fun enc => enc <> []) unicodeSpaces.
Proof.
  apply List.Forall_forall. intros enc Hin.
  assert (Hb : forallb (fun enc => negb (length enc =? 0)) unicodeSpaces = true)
    by (vm_compute; reflexivity).
  rewrite forallb_forall in Hb. specialize (Hb enc Hin).
  intros ->. discriminate.
Qed.

Lemma shape (enc : gostring) :
  In enc unicodeSpaces ->
  length enc = 1 \/ forallb (fun c => negb (isAscii c)) enc = true.
Proof. intros Hin. exact (proj1 (List.Forall_forall _ _) unicodeSpaces_shape enc Hin). Qed.

Lemma spaceWidth_zero (s : gostring) :
  spaceWidth s = 0 <-> forall enc, In enc unicodeSpaces -> HasPrefix s enc = false.
Proof.
  unfold spaceWidth. destruct (find (HasPrefix s) unicodeSpaces) as [enc|] eqn:Hf.
  - apply find_some in Hf as [Hin Hp]. split.
    + intros Hlen. apply length_zero_iff_nil in Hlen. subst enc.
      now apply (proj1 (List.Forall_forall _ _) unicodeSpaces_not_nil) in Hin.
    + intros Hall. rewrite (Hall enc Hin) in Hp. discriminate.
  - split; [| reflexivity]. intros _ enc Hin. exact (find_none _ _ Hf enc Hin).
Qed.

Lemma spaceWidthRev_zero (s : gostring) :
  spaceWidthRev (rev s) = 0 <-> forall enc, In enc unicodeSpaces -> HasSuffix s enc = false.
Proof.
  unfold spaceWidthRev, HasSuffix.
  destruct (find (fun enc => HasPrefix (rev s) (rev enc)) unicodeSpaces) as [enc|] eqn:Hf.
  - apply find_some in Hf as [Hin Hp]. split.
    + intros Hlen. apply length_zero_iff_nil in Hlen. subst enc.
      now apply (proj1 (List.Forall_forall _ _) unicodeSpaces_not_nil) in Hin.
    + intros Hall. rewrite (Hall enc Hin) in Hp. discriminate.
  - split; [| reflexivity]. intros _ enc Hin. exact (find_none _ _ Hf enc Hin).
Qed.

Lemma ContainsSpace_false (s : gostring) :
  ContainsSpace s = false <->
  forall enc, In enc unicodeSpaces -> Contains s enc = false.
Proof.
  unfold ContainsSpace. rewrite <- not_true_iff_false, existsb_exists. split.
  - intros Hn enc Hin. apply not_true_iff_false. intros Hc. apply Hn. now exists enc.
  - intros Hall [enc [Hin Hc]]. rewrite (Hall enc Hin) in Hc. discriminate.
Qed.

Lemma ContainsSpace_app (a b : gostring) :
  ContainsSpace (a ++ b) = false -> ContainsSpace a = false /\ ContainsSpace b = false.
Proof.
  rewrite !ContainsSpace_false. intros Hab. split; intros enc Hin;
    apply not_true_iff_false; intros Hc;
    specialize (Hab enc Hin); apply not_true_iff_false in Hab; apply Hab.
  - now apply Contains_app_l.
  - now apply Contains_app_r.
Qed.

Lemma ContainsSpace_tail (c : ascii) (s : gostring) :
  ContainsSpace (c :: s) = false -> ContainsSpace s = false.
Proof. intros Hc. now apply (ContainsSpace_app [c] s). Qed.

Lemma ContainsSpace_no_byte (s : gostring) (c : ascii) :
  In [c] unicodeSpaces -> ContainsSpace s = false -> Contains s [c] = false.
Proof. intros Hin Hs. exact (proj1 (ContainsSpace_false s) Hs _ Hin). Qed.

Lemma ContainsSpace_no_newline (s : gostring) :
  ContainsSpace s = false -> Contains s ["010"%char] = false.
Proof. apply ContainsSpace_no_byte. simpl. tauto. Qed.

(** A multi-byte encoding holds no ASCII byte. *)
Lemma enc_no_ascii (enc a b : gostring) (c : ascii) :
  In enc unicodeSpaces -> enc = a ++ c :: b -> isAscii c = true -> a = [] /\ b = [].
Proof.
  intros Hin -> Hc. destruct (shape _ Hin) as [Hlen | Hall].
  - rewrite length_app in Hlen. simpl in Hlen.
    destruct a; [destruct b; [tauto | simpl in Hlen; lia] | simpl in Hlen; lia].
  - rewrite forallb_app in Hall. simpl in Hall. rewrite Hc in Hall. simpl in Hall.
    rewrite andb_false_r in Hall. discriminate.
Qed.

(** A string free of white space does not start with a white-space rune,
    whatever ASCII text follows it. *)
Lemma spaceWidth_app (s t : gostring) :
  s <> [] -> ContainsSpace s = false -> asciiHead t = true ->
  spaceWidth (s ++ t) = 0.
Proof.
  intros Hne Hs Ht. apply spaceWidth_zero. intros enc Hin.
  apply not_true_iff_false. intros Hp. apply HasPrefix_spec in Hp as [u Hu].
  pose proof (proj1 (ContainsSpace_false s) Hs enc Hin) as Hc.
  apply not_true_iff_false in Hc. apply Hc. apply Contains_spec.
  apply app_eq_app in Hu as [l [[-> ->] | [-> ->]]].
  - exists [], l. reflexivity.
  - destruct l as [|c l].
    + exists [], []. now rewrite ?app_nil_r.
    + simpl in Ht. destruct (enc_no_ascii _ s l c Hin eq_refl Ht) as [-> _]. congruence.
Qed.

Lemma spaceWidthRev_app (t s : gostring) :
  s <> [] -> ContainsSpace s = false -> asciiLast t = true ->
  spaceWidthRev (rev (t ++ s)) = 0.
Proof.
  intros Hne Hs Ht. apply spaceWidthRev_zero. intros enc Hin.
  apply not_true_iff_false. intros Hp. apply HasSuffix_spec in Hp as [u Hu].
  pose proof (proj1 (ContainsSpace_false s) Hs enc Hin) as Hc.
  apply not_true_iff_false in Hc. apply Hc. apply Contains_spec.
  apply app_eq_app in Hu as [l [[-> ->] | [-> ->]]].
  - destruct (rev l) as [|c l'] eqn:Hl.
    + apply (f_equal (@rev ascii)) in Hl. rewrite rev_involutive in Hl. subst l.
      exists [], []. now rewrite ?app_nil_r.
    + apply (f_equal (@rev ascii)) in Hl. rewrite rev_involutive in Hl. subst l.
      unfold asciiLast in Ht. rewrite rev_app_distr, rev_involutive in Ht. simpl in Ht.
      simpl rev in Hin.
      assert (Heq : (rev l' ++ [c]) ++ s = rev l' ++ c :: s) by now rewrite <- app_assoc.
      destruct (enc_no_ascii _ (rev l') s c Hin Heq Ht) as [_ ->]. congruence.
  - exists l, []. now rewrite app_nil_r.
Qed.

(** White-space-free strings joined by an ASCII byte that is not white
    space. *)
Lemma ContainsSpace_join (a b : gostring) (c : ascii) :
  isAscii c = true -> ContainsSpace [c] = false ->
  ContainsSpace a = false -> ContainsSpace b = false ->
  ContainsSpace (a ++ c :: b) = false.
Proof.
  intros Hc Hcs Ha Hb. apply ContainsSpace_false. intros enc Hin.
  apply not_true_iff_false. intros Hp. apply Contains_spec in Hp as [x [y Hxy]].
  pose proof (proj1 (ContainsSpace_false a) Ha enc Hin) as Hna.
  pose proof (proj1 (ContainsSpace_false b) Hb enc Hin) as Hnb.
  pose proof (proj1 (ContainsSpace_false [c]) Hcs enc Hin) as Hnc.
  apply not_true_iff_false in Hna, Hnb, Hnc.
  assert (Hone : forall l m, enc = l ++ c :: m -> False).
  { intros l m Hlm. destruct (enc_no_ascii _ l m c Hin Hlm Hc) as [-> ->].
    apply Hnc. subst enc. simpl. now rewrite Ascii.eqb_refl. }
  apply app_eq_app in Hxy as [l [[-> Hl] | [-> Hl]]].
  - apply app_eq_app in Hl as [m [[-> Hm] | [-> ->]]].
    + destruct m as [|d m].
      * apply Hna. apply Contains_spec. exists x, []. now rewrite ?app_nil_r.
      * injection Hm as <- _. now apply (Hone l m).
    + apply Hna. apply Contains_spec. exists x, m. now rewrite <- ?app_assoc.
  - destruct l as [|d l].
    + destruct enc as [|e enc'].
      * now apply (proj1 (List.Forall_forall _ _) unicodeSpaces_not_nil) in Hin.
      * injection Hl as -> _. now apply (Hone [] enc').
    + injection Hl as _ ->. apply Hnb. apply Contains_spec. now exists l, y.
Qed.

(** *** [TrimSpace] *)
Lemma trimWith_id (width : gostring -> nat) (s : gostring) :
  width s = 0 -> trimWith width 0 s = s.
Proof. destruct s; simpl; [reflexivity | now intros ->]. Qed.

Lemma TrimSpace_id (s : gostring) :
  spaceWidth s = 0 -> spaceWidthRev (rev s) = 0 -> TrimSpace s = s.
Proof.
  intros Hl Hr. unfold TrimSpace, TrimLeftSpace, TrimRightSpace.
  rewrite (trimWith_id _ s Hl), (trimWith_id _ (rev s) Hr). apply rev_involutive.
Qed.

Lemma TrimSpace_nil : TrimSpace [] = [].
Proof. reflexivity. Qed.

(** A white-space-free string is its own trimmed form. *)
Lemma TrimSpace_free (s : gostring) : ContainsSpace s = false -> TrimSpace s = s.
Proof.
  intros Hs. destruct s as [|c s]; [reflexivity |]. apply TrimSpace_id.
  - rewrite <- (app_nil_r (c :: s)). now apply spaceWidth_app.
  - change (c :: s) with ([] ++ c :: s). now apply spaceWidthRev_app.
Qed.

(** ... and so is one between ASCII text that neither starts nor ends with
    white space. *)
Lemma TrimSpace_app (s t : gostring) :
  s <> [] -> ContainsSpace s = false -> asciiHead t = true ->
  spaceWidthRev (rev (s ++ t)) = 0 -> TrimSpace (s ++ t) = s ++ t.
Proof. intros Hne Hs Ht Hr. apply TrimSpace_id; [now apply spaceWidth_app | exact Hr]. Qed.

Lemma TrimLeftSpace_sp (s : gostring) :
  TrimLeftSpace (" "%char :: s) = TrimLeftSpace s.
Proof. reflexivity. Qed.

(** *** [Fields] *)
Lemma fieldsFrom_free (cur s : gostring) :
  ContainsSpace s = false -> fieldsFrom 0 cur s = flushField (rev s ++ cur).
Proof.
  revert cur. induction s as [|c s IH]; intros cur Hs; [reflexivity |].
  assert (Hw : spaceWidth (c :: s) = 0).
  { rewrite <- (app_nil_r (c :: s)). now apply spaceWidth_app. }
  simpl fieldsFrom. rewrite Hw. rewrite IH by now apply (ContainsSpace_tail c).
  simpl. now rewrite <- app_assoc.
Qed.

Lemma fieldsFrom_sp (cur s t : gostring) :
  ContainsSpace s = false ->
  fieldsFrom 0 cur (s ++ " "%char :: t) = flushField (rev s ++ cur) ++ fieldsFrom 0 [] t.
Proof.
  revert cur. induction s as [|c s IH]; intros cur Hs; [reflexivity |].
  assert (Hw : spaceWidth ((c :: s) ++ " "%char :: t) = 0)
    by now apply spaceWidth_app.
  simpl app in *. simpl fieldsFrom. rewrite Hw.
  rewrite IH by now apply (ContainsSpace_tail c).
  simpl. now rewrite <- app_assoc.
Qed.

Lemma flushField_rev (s : gostring) : s <> [] -> flushField (rev s) = [s].
Proof.
  intros Hne. destruct (rev s) as [|c r] eqn:Hr.
  - apply (f_equal (@rev ascii)) in Hr. rewrite rev_involutive in Hr. now subst.
  - unfold flushField. rewrite <- Hr, rev_involutive. reflexivity.
Qed.

Lemma Fields_free (s : gostring) :
  s <> [] -> ContainsSpace s = false -> Fields s = [s].
Proof.
  intros Hne Hs. unfold Fields. rewrite fieldsFrom_free by assumption.
  rewrite app_nil_r. now apply flushField_rev.
Qed.

End space_facts.

(** * The rule model *)
Section RuleModel.
Import strings strings_facts space_facts.

Lemma GetFullName_service (r : ForwardRule) :
  ServiceName r <> [] ->
  GetFullName r = ServiceName r ++ lit "." ++ Namespace r.
Proof.
  intros Hs. unfold GetFullName.
  now rewrite (proj2 (eqb_false (ServiceName r) (lit "")) Hs).
Qed.

Lemma GetFullName_namespace (r : ForwardRule) :
  ServiceName r = [] -> GetFullName r = Namespace r.
Proof. intros Hs. unfold GetFullName. now rewrite Hs. Qed.

(** The text of a rendered rule, as a block of lines. *)
Lemma ToCorefile_block (r : ForwardRule) :
  ToCorefile r =
    if IsFullFQDN r then
      block (GetFullName r ++ lit ".svc.cluster.local:53")
            [lit "forward . " ++ TargetIP r]
    else if negb (eqb (ServiceName r) (lit "")) then
      block (GetFullName r ++ lit ":53")
            [lit "rewrite name exact " ++ GetFullName r ++ lit " " ++
               GetFullName r ++ lit ".svc.cluster.local. answer auto";
             lit "forward . " ++ TargetIP r]
    else
      block (Namespace r ++ lit ":53")
            [lit "rewrite name regex (.*)\." ++ Namespace r ++ lit " " ++
               Namespace r ++ lit ".svc.cluster.local. answer auto";
             lit "forward . " ++ TargetIP r].
Proof.
  unfold ToCorefile, block, fmt.Sprintf.
  destruct (IsFullFQDN r); [| destruct (negb (eqb (ServiceName r) (lit "")))];
    cbn; app_norm; reflexivity.
Qed.

(** C8. [ToCorefile] renders exactly one of the three blocks of the grammar:
    for an FQDN rule the block headed [<fullName>.svc.cluster.local:53 {]
    with the [forward] directive alone; for a service rule that is not FQDN
    the block headed [<fullName>:53 {] with [rewrite name exact] and
    [forward]; otherwise the block headed [<namespace>:53 {] with
    [rewrite name regex] and [forward].  The body lines are indented by four
    spaces and the block ends with a closing brace on its own line. *)
Theorem ToCorefile_exact (r : ForwardRule) :
  ToCorefile r =
    if IsFullFQDN r then
      block (GetFullName r ++ lit ".svc.cluster.local:53")
            [lit "forward . " ++ TargetIP r]
    else if negb (eqb (ServiceName r) (lit "")) then
      block (GetFullName r ++ lit ":53")
            [lit "rewrite name exact " ++ GetFullName r ++ lit " " ++
               GetFullName r ++ lit ".svc.cluster.local. answer auto";
             lit "forward . " ++ TargetIP r]
    else
      block (Namespace r ++ lit ":53")
            [lit "rewrite name regex (.*)\." ++ Namespace r ++ lit " " ++
               Namespace r ++ lit ".svc.cluster.local. answer auto";
             lit "forward . " ++ TargetIP r].
Proof.
  unfold ToCorefile, block, fmt.Sprintf.
  destruct (IsFullFQDN r); [| destruct (negb (eqb (ServiceName r) (lit "")))];
    cbn; app_norm; reflexivity.
Qed.

(** C7. [ParseNameInput] trims the input; if the trimmed text ends with
    [.svc.cluster.local] the suffix is stripped and [isFullFQDN] is true,
    otherwise it is false; the rest is cut at its first dot: the part before
    it is the service name and the part after it the namespace, and a rest
    without a dot is the namespace, with an empty service name. *)
Theorem ParseNameInput_algorithm (input : gostring) :
  let trimmed := TrimSpace input in
  exists (rest : gostring) (isFullFQDN : bool),
    (isFullFQDN = true /\ trimmed = rest ++ lit ".svc.cluster.local"
     \/ isFullFQDN = false /\ rest = trimmed /\
        forall x, trimmed <> x ++ lit ".svc.cluster.local") /\
    ((exists serviceName namespace,
        rest = serviceName ++ lit "." ++ namespace /\
        Contains serviceName (lit ".") = false /\
        ParseNameInput input = (serviceName, namespace, isFullFQDN))
     \/ (Contains rest (lit ".") = false /\
         ParseNameInput input = (lit "", rest, isFullFQDN))).
Proof.
  intros trimmed. unfold ParseNameInput. fold trimmed.
  destruct (HasSuffix trimmed (lit ".svc.cluster.local")) eqn:Hsuf.
  - destruct (proj1 (HasSuffix_spec _ _) Hsuf) as [rest Hrest].
    exists rest, true. split; [left; now split |].
    rewrite Hrest, TrimSuffix_app.
    destruct (first_sep rest ".") as [Hno | [a [b [-> Ha]]]].
    + right. split; [exact Hno |]. now rewrite SplitN2_no_sep.
    + left. exists a, b. split; [reflexivity |]. split; [exact Ha |].
      now rewrite SplitN2_first.
  - exists trimmed, false. split.
    + right. split; [reflexivity |]. split; [reflexivity |].
      now apply HasSuffix_false.
    + destruct (first_sep trimmed ".") as [Hno | [a [b [Heq Ha]]]].
      * right. split; [exact Hno |]. now rewrite SplitN2_no_sep.
      * left. exists a, b. split; [exact Heq |]. split; [exact Ha |].
        now rewrite Heq, SplitN2_first.
Qed.

End RuleModel.

(** * Deletion *)
Module delete_facts.
Import strings strings_facts space_facts.

Lemma deleteStep_keep (p : gostring) (st : deleteState) (line : gostring) :
  skipBlock st = false -> isHeader p line = false ->
  deleteStep p st line = copying (newLines st ++ [line]) (braceCount st).
Proof.
  intros Hs Hh. unfold deleteStep. unfold isHeader in Hh. rewrite Hh, Hs. reflexivity.
Qed.

(** Lines without a header for [p] are copied, in order. *)
Lemma delete_keep (p : gostring) (lines acc : list gostring) (bc : Z) :
  forallb (fun l => negb (isHeader p l)) lines = true ->
  fold_left (deleteStep p) lines (copying acc bc) = copying (acc ++ lines) bc.
Proof.
  revert acc. induction lines as [|l lines IH]; intros acc Hall; simpl.
  - now rewrite app_nil_r.
  - simpl in Hall. apply andb_true_iff in Hall as [Hl Hrest].
    apply negb_true_iff in Hl.
    rewrite deleteStep_keep by (simpl; trivial). simpl.
    rewrite IH by assumption. now rewrite <- app_assoc.
Qed.






Lemma deleteLines_none (p : gostring) (lines : list gostring) :
  forallb (fun l => negb (isHeader p l)) lines = true ->
  deleteLines p lines = lines.
Proof.
  intros Hall. unfold deleteLines. fold (copying [] 0). now rewrite delete_keep.
Qed.

(** No header for [p] survives a deletion. *)
Lemma delete_no_header (p : gostring) (lines : list gostring) (st : deleteState) :
  forallb (fun l => negb (isHeader p l)) (newLines st) = true ->
  forallb (fun l => negb (isHeader p l))
          (newLines (fold_left (deleteStep p) lines st)) = true.
Proof.
  revert st. induction lines as [|l lines IH]; intros st Hst; [exact Hst |].
  simpl. apply IH. unfold deleteStep. fold (isHeader p l).
  destruct (isHeader p l) eqn:Hh; simpl.
  - now destruct (_ && _).
  - destruct (skipBlock st); [now destruct (_ && _) |]. simpl.
    rewrite forallb_app, Hst. simpl. now rewrite Hh.
Qed.

(** *** The rendered block is a block *)
Lemma Split_app_sep (s t : gostring) (sep : ascii) :
  Split (s ++ sep :: t) sep = Split s sep ++ Split t sep.
Proof.
  induction s as [|c s IH]; simpl.
  - now rewrite Ascii.eqb_refl.
  - destruct (Ascii.eqb c sep); [now rewrite IH |]. rewrite IH.
    pose proof (Split_not_nil s sep) as Hnn.
    destruct (Split s sep); [congruence | reflexivity].
Qed.








End delete_facts.

(** * The handler on the world *)
Section WorldFacts.
Context `{ClientGo}.
Import strings strings_facts space_facts delete_facts.

Lemma createClient_frame (cluster : Cluster) (w w' : World) (r : result Clientset) :
  createClient cluster w = (r, w') ->
  api w' = api w /\ manager w' = manager w /\
  match r with
  | Ok c => c = constructed w /\ constructed w' = S (constructed w)
  | _ => constructed w' = constructed w
  end.
Proof.
  unfold createClient, bind, lift, wrap, allocate.
  destruct (base64_DecodeString (Kubeconfig cluster)) as [data | e | msg];
    [| intros [= <- <-]; auto | intros [= <- <-]; auto].
  destruct (RESTConfigFromKubeConfig data) as [config | e | msg];
    [| intros [= <- <-]; auto | intros [= <- <-]; auto].
  destruct (NewForConfig config) as [e |]; intros [= <- <-]; auto.
Qed.

Lemma GetClient_hit (cluster : Cluster) (w : World) (c : Clientset) :
  clients (manager w) !! ID cluster = Some c -> GetClient cluster w = (Ok c, w).
Proof. intros Hc. unfold GetClient. now rewrite Hc. Qed.

Lemma GetClient_frame (cluster : Cluster) (w w' : World) (r : result Clientset) :
  GetClient cluster w = (r, w') -> api w' = api w.
Proof.
  unfold GetClient. destruct (clients (manager w) !! ID cluster) as [c|].
  - now intros [= <- <-].
  - unfold bind. destruct (createClient cluster w) as [r1 w1] eqn:Hc.
    apply createClient_frame in Hc as [Hapi _].
    destruct r1; intros [= <- <-]; simpl; assumption.
Qed.

Lemma GetClient_cached (cluster : Cluster) (w w' : World) (c : Clientset) :
  GetClient cluster w = (Ok c, w') -> clients (manager w') !! ID cluster = Some c.
Proof.
  unfold GetClient. destruct (clients (manager w) !! ID cluster) as [c0|] eqn:Hl.
  - now intros [= <- <-].
  - unfold bind. destruct (createClient cluster w) as [r1 w1] eqn:Hc.
    destruct r1; intros [= <- <-]. simpl. apply lookup_insert_eq.
Qed.

Lemma GetClient_again (cluster : Cluster) (w w' : World) (c : Clientset) :
  GetClient cluster w = (Ok c, w') -> GetClient cluster w' = (Ok c, w').
Proof. intros Hg. apply GetClient_hit. now apply (GetClient_cached cluster w). Qed.

(** The Corefile a ConfigMap holds. *)
Lemma GetCoreDNSInfo_run (cluster : Cluster) (w w1 : World) (client : Clientset)
    (cm : ConfigMap) (svc : Service) :
  GetClient cluster w = (Ok client, w1) ->
  configMap (api w) = Ok cm -> service (api w) = Ok svc ->
  let corefile := match Data cm with
                  | Some data => default [] (data !! CorefileName)
                  | None => []
                  end in
  GetCoreDNSInfo cluster w =
    (Ok {| info_ConfigMap := cm; info_Service := svc; Corefile := corefile;
           ServiceIP := ClusterIP svc; ForwardRules := parseForwardRules corefile |},
     onApi (fun a => logged ReqGetService (logged ReqGetConfigMap a)) w1).
Proof.
  intros Hg Hcm Hsvc corefile. pose proof (GetClient_frame _ _ _ _ Hg) as Hapi.
  unfold GetCoreDNSInfo, bind. rewrite Hg.
  unfold wrap, ConfigMaps_Get, Services_Get, request. simpl.
  rewrite Hapi, Hcm. simpl. rewrite Hapi, Hsvc. reflexivity.
Qed.

Lemma GetCoreDNSInfo_ok (cluster : Cluster) (w w' : World) (info : CoreDNSInfo) :
  GetCoreDNSInfo cluster w = (Ok info, w') ->
  ForwardRules info = parseForwardRules (Corefile info) /\
  exists w1 client,
    GetClient cluster w = (Ok client, w1) /\
    w' = onApi (fun a => logged ReqGetService (logged ReqGetConfigMap a)) w1.
Proof.
  unfold GetCoreDNSInfo, bind.
  destruct (GetClient cluster w) as [[client | e | msg] w1] eqn:Hg; try discriminate.
  unfold wrap, ConfigMaps_Get, Services_Get, request. simpl.
  destruct (configMap (api w1)) as [cm | e | msg]; try discriminate. simpl.
  destruct (service (api w1)) as [svc | e | msg]; try discriminate.
  unfold ret. intros [= <- <-]. split; [reflexivity |].
  exists w1, client. split; reflexivity.
Qed.

Lemma UpdateCorefile_run (cluster : Cluster) (w : World) (client : Clientset)
    (cm : ConfigMap) (data : gmap gostring gostring) (corefile : gostring) :
  clients (manager w) !! ID cluster = Some client ->
  configMap (api w) = Ok cm -> Data cm = Some data -> updateRefused (api w) = None ->
  let cm' := {| Data := Some (<[CorefileName := corefile]> data) |} in
  UpdateCorefile cluster corefile w =
    (Ok tt,
     onApi (fun a => logged (ReqUpdateConfigMap cm') (storing cm' (logged ReqGetConfigMap a))) w).
Proof.
  intros Hc Hcm Hdata Hup cm'. unfold UpdateCorefile, bind.
  rewrite (GetClient_hit _ _ _ Hc).
  unfold wrap, ConfigMaps_Get, request. rewrite Hcm, Hdata.
  unfold ConfigMaps_Update. simpl. rewrite Hup. reflexivity.
Qed.

(** What [DeleteForwardRule] does when the API server answers. *)
Lemma DeleteForwardRule_run (cluster : Cluster) (name : gostring) (isFullFQDN : bool)
    (w w1 : World) (client : Clientset) (cm : ConfigMap)
    (data : gmap gostring gostring) (svc : Service) :
  GetClient cluster w = (Ok client, w1) ->
  configMap (api w) = Ok cm -> Data cm = Some data ->
  service (api w) = Ok svc -> updateRefused (api w) = None ->
  let corefile := default [] (data !! CorefileName) in
  let cm' := {| Data := Some (<[CorefileName :=
                   deleteFromCorefile corefile name isFullFQDN]> data) |} in
  DeleteForwardRule cluster name isFullFQDN w =
    (Ok tt,
     onApi (fun a => logged (ReqUpdateConfigMap cm')
                       (storing cm' (logged ReqGetConfigMap
                          (logged ReqGetService (logged ReqGetConfigMap a))))) w1).
Proof.
  intros Hg Hcm Hdata Hsvc Hup corefile cm'.
  pose proof (GetClient_frame _ _ _ _ Hg) as Hapi.
  unfold DeleteForwardRule, bind.
  rewrite (GetCoreDNSInfo_run _ _ _ _ _ _ Hg Hcm Hsvc). rewrite Hdata. simpl Corefile.
  rewrite (UpdateCorefile_run cluster _ client cm data).
  - reflexivity.
  - simpl. now apply (GetClient_cached cluster w).
  - simpl. now rewrite Hapi.
  - assumption.
  - simpl. now rewrite Hapi.
Qed.

End WorldFacts.

(** * Deleting and adding rules *)
Section DeleteClaims.
Import strings strings_facts space_facts delete_facts.

(** The prefix computed by [DeleteForwardRule]. *)
Lemma ruleBlockOf_eq (name : gostring) (isFullFQDN : bool) :
  ruleBlockOf name isFullFQDN =
    (let '(serviceName, namespace, _) := ParseNameInput name in
     if negb (eqb serviceName (lit "")) then serviceName ++ lit "." ++ namespace
     else namespace)
    ++ (if isFullFQDN then lit ".svc.cluster.local:53" else lit ":53").
Proof.
  unfold ruleBlockOf. destruct (ParseNameInput name) as [[serviceName namespace] b].
  destruct isFullFQDN; cbn; now rewrite ?app_nil_r.
Qed.

Lemma ruleBlockOf_not_nil (name : gostring) (isFullFQDN : bool) :
  ruleBlockOf name isFullFQDN <> [].
Proof.
  rewrite ruleBlockOf_eq. intros Heq. apply app_eq_nil in Heq as [_ Heq].
  destruct isFullFQDN; discriminate.
Qed.

Lemma isHeader_nil (p : gostring) : p <> [] -> isHeader p [] = false.
Proof. destruct p; [congruence | reflexivity]. Qed.

Lemma isLine_forall (lines : list gostring) :
  forallb isLine lines = true ->
  Forall (fun l => Contains l ["010"%char] = false) lines.
Proof.
  rewrite forallb_forall, List.Forall_forall. intros Hall l Hin.
  specialize (Hall l Hin). unfold isLine in Hall. now apply negb_true_iff in Hall.
Qed.

(** On a text given by its lines, the deletion is the loop over them. *)
Lemma deleteFromCorefile_lines (lines : list gostring) (name : gostring) (isFullFQDN : bool) :
  forallb isLine lines = true ->
  deleteFromCorefile (Join lines nl) name isFullFQDN
  = Join (deleteLines (ruleBlockOf name isFullFQDN) lines) nl.
Proof.
  intros Hl. unfold deleteFromCorefile. destruct lines as [|l lines].
  - simpl Join at 1. change (Split [] "010") with [lit ""].
    rewrite deleteLines_none; [reflexivity |]. simpl.
    rewrite isHeader_nil; [reflexivity | apply ruleBlockOf_not_nil].
  - unfold nl. rewrite Split_Join; [reflexivity | discriminate | now apply isLine_forall].
Qed.



End DeleteClaims.

Section HandlerClaims.
Context `{ClientGo}.
Import strings strings_facts space_facts delete_facts.

(** C4. When no line of the Corefile starts, once trimmed, with the prefix
    computed from the name, the deletion returns the text unchanged, and
    [DeleteForwardRule], the API server answering, returns no error and
    writes that text back. *)
Theorem DeleteForwardRule_absent (cluster : Cluster) (name : gostring)
    (isFullFQDN : bool) (w w1 : World) (client : Clientset) (cm : ConfigMap)
    (data : gmap gostring gostring) (svc : Service) :
  let corefile := default [] (data !! CorefileName) in
  let cm' := {| Data := Some (<[CorefileName := corefile]> data) |} in
  GetClient cluster w = (Ok client, w1) ->
  configMap (api w) = Ok cm -> Data cm = Some data ->
  service (api w) = Ok svc -> updateRefused (api w) = None ->
  forallb (fun l => negb (isHeader (ruleBlockOf name isFullFQDN) l))
          (Split corefile "010") = true ->
  deleteFromCorefile corefile name isFullFQDN = corefile /\
  exists w',
    DeleteForwardRule cluster name isFullFQDN w = (Ok tt, w') /\
    configMap (api w') = Ok cm' /\
    requests (api w') =
      requests (api w) ++
      [ReqGetConfigMap; ReqGetService; ReqGetConfigMap; ReqUpdateConfigMap cm'].
Proof.
  intros corefile cm' Hg Hcm Hdata Hsvc Hup Hnone.
  assert (Htext : deleteFromCorefile corefile name isFullFQDN = corefile).
  { unfold deleteFromCorefile. rewrite deleteLines_none by assumption.
    apply Join_Split. }
  split; [exact Htext |].
  eexists. split.
  - rewrite (DeleteForwardRule_run cluster name isFullFQDN w w1 client cm data svc)
      by assumption.
    reflexivity.
  - fold corefile. rewrite Htext. fold cm'. simpl.
    rewrite (GetClient_frame _ _ _ _ Hg). split; [reflexivity |].
    now rewrite <- ?app_assoc.
Qed.

(** C2. When a rule parsed from the fetched Corefile has the full name of
    the new rule, whatever the [IsFullFQDN] of either, [AddForwardRule]
    returns the error that the rule already exists and sends no update: the
    stored ConfigMap is the one that was there. *)
Theorem AddForwardRule_duplicate (cluster : Cluster) (rule : ForwardRule)
    (w w' : World) (info : CoreDNSInfo) :
  GetCoreDNSInfo cluster w = (Ok info, w') ->
  (exists r, In r (parseForwardRules (Corefile info))
             /\ GetFullName r = GetFullName rule) ->
  AddForwardRule cluster rule w =
    (Err (lit "forward rule for " ++ GetFullName rule ++ lit " already exists"), w') /\
  configMap (api w') = configMap (api w) /\
  requests (api w') = requests (api w) ++ [ReqGetConfigMap; ReqGetService].
Proof.
  intros Hinfo [r [Hin Hname]].
  destruct (GetCoreDNSInfo_ok _ _ _ _ Hinfo) as [Hrules [w1 [client [Hg ->]]]].
  split.
  - unfold AddForwardRule, bind. rewrite Hinfo, Hrules.
    replace (existsb _ _) with true.
    + unfold fail. cbn. reflexivity.
    + symmetry. apply existsb_exists. exists r. split; [exact Hin |].
      now apply eqb_true.
  - simpl. rewrite (GetClient_frame _ _ _ _ Hg). split; [reflexivity |].
    now rewrite <- app_assoc.
Qed.

End HandlerClaims.

(** * The parser *)
Section ParserClaims.
Import strings strings_facts space_facts.

Lemma lookForward_cases (lines : list gostring) (j n : nat)
    (serviceName namespace : gostring) (isFullFQDN : bool) (rules : list ForwardRule) :
  lookForward lines j n serviceName namespace isFullFQDN rules = rules \/
  exists k l,
    k < n /\ nth_error lines (j + k) = Some l /\
    HasPrefix (TrimSpace l) (lit "forward .") = true /\
    lookForward lines j n serviceName namespace isFullFQDN rules
    = rules ++ [ {| Namespace := namespace; ServiceName := serviceName;
                    TargetIP := nth 2 (Fields (TrimSpace l)) [];
                    IsFullFQDN := isFullFQDN |} ] /\
    forall k', k' < k ->
      exists l', nth_error lines (j + k') = Some l' /\
                 HasPrefix (TrimSpace l') (lit "forward .") = false /\
                 Contains (TrimSpace l') (lit "}") = false.
Proof.
  revert j. induction n as [|n IH]; intros j; [now left |]. cbn [lookForward].
  destruct (nth_error lines j) as [l|] eqn:Hl; [| now left].
  destruct (HasPrefix (TrimSpace l) (lit "forward .")) eqn:Hfw.
  - destruct (3 <=? length (Fields (TrimSpace l))); [| now left].
    right. exists 0, l. rewrite Nat.add_0_r.
    split; [lia |]. split; [exact Hl |]. split; [exact Hfw |]. split; [reflexivity |].
    intros k' Hk'. lia.
  - destruct (Contains (TrimSpace l) (lit "}")) eqn:Hbr; [now left |].
    destruct (IH (S j)) as [Hsame | [k [l1 [Hk [Hl1 [Hfw1 [Heq Hbefore]]]]]]]; [now left |].
    right. exists (S k), l1. replace (j + S k) with (S j + k) by lia.
    split; [lia |]. split; [exact Hl1 |]. split; [exact Hfw1 |]. split; [exact Heq |].
    intros [|k'] Hk'.
    + exists l. rewrite Nat.add_0_r. now repeat split.
    + replace (j + S k') with (S j + k') by lia. apply Hbefore. lia.
Qed.

Lemma lookForward_app (lines : list gostring) (j n : nat)
    (serviceName namespace : gostring) (isFullFQDN : bool) (rules : list ForwardRule) :
  lookForward lines j n serviceName namespace isFullFQDN rules
  = rules ++ lookForward lines j n serviceName namespace isFullFQDN [].
Proof.
  revert j. induction n as [|n IH]; intros j; cbn [lookForward]; [now rewrite app_nil_r |].
  destruct (nth_error lines j) as [l|]; [| now rewrite app_nil_r].
  destruct (HasPrefix _ _).
  - destruct (3 <=? _); [reflexivity | now rewrite app_nil_r].
  - destruct (Contains _ _); [now rewrite app_nil_r | apply IH].
Qed.

Lemma parseLine_app (lines : list gostring) (i : nat) (line : gostring)
    (rules : list ForwardRule) :
  parseLine lines i line rules = rules ++ parseLine lines i line [].
Proof.
  unfold parseLine.
  destruct (negb (Contains _ _)); [now rewrite app_nil_r |].
  destruct (_ && _); [now rewrite app_nil_r |].
  destruct (_ || _); [now rewrite app_nil_r |].
  destruct (domainNames _) as [[serviceName namespace] fq].
  destruct (eqb namespace (lit "")); [now rewrite app_nil_r |].
  apply lookForward_app.
Qed.

Lemma parseLoop_by_line (lines rest : list gostring) (i : nat) (rules : list ForwardRule) :
  skipn i lines = rest ->
  parseLoop lines i rest rules
  = rules ++ flat_map (rulesOfLine lines) (seq i (length rest)).
Proof.
  revert i rules. induction rest as [|line rest IH]; intros i rules Hskip; simpl.
  - now rewrite app_nil_r.
  - assert (Hnth : nth_error lines i = Some line).
    { rewrite <- (Nat.add_0_r i), <- nth_error_skipn, Hskip. reflexivity. }
    rewrite IH.
    + unfold rulesOfLine at 2. rewrite Hnth.
      rewrite (parseLine_app lines i line rules). now rewrite <- app_assoc.
    + replace (S i) with (1 + i) by lia. rewrite <- skipn_skipn, Hskip. reflexivity.
Qed.

(** The parse is the rules of each line, in order. *)
Lemma parseForwardRules_by_line (corefile : gostring) :
  let lines := Split corefile "010" in
  parseForwardRules corefile = flat_map (rulesOfLine lines) (seq 0 (length lines)).
Proof. intros lines. unfold parseForwardRules. now rewrite parseLoop_by_line. Qed.

(** C5. The rules parsed from a text are those of its lines, and a line
    whose domain part is empty, [.] or [cluster.local] has none: so for the
    headers [.:53 {] and [cluster.local:53 {]. *)
Theorem domain_exclusion (corefile : gostring) :
  let lines := Split corefile "010" in
  parseForwardRules corefile = flat_map (rulesOfLine lines) (seq 0 (length lines)) /\
  forall i line,
    nth_error lines i = Some line ->
    (domainPartOf (TrimSpace line) = lit "" \/
     domainPartOf (TrimSpace line) = lit "." \/
     domainPartOf (TrimSpace line) = lit "cluster.local" \/
     TrimSpace line = lit ".:53 {" \/
     TrimSpace line = lit "cluster.local:53 {") ->
    rulesOfLine lines i = [].
Proof.
  intros lines. split; [apply parseForwardRules_by_line |].
  intros i line Hnth Hdom. unfold rulesOfLine. rewrite Hnth.
  assert (Hex : domainPartOf (TrimSpace line) = lit "" \/
                domainPartOf (TrimSpace line) = lit "." \/
                domainPartOf (TrimSpace line) = lit "cluster.local").
  { destruct Hdom as [Hd | [Hd | [Hd | [Hd | Hd]]]]; try tauto;
      rewrite Hd; [right; left | right; right]; reflexivity. }
  unfold parseLine.
  destruct (negb (Contains _ _)); [reflexivity |].
  destruct (_ && _); [reflexivity |].
  destruct Hex as [-> | [-> | ->]]; reflexivity.
Qed.

(** C6. A line emits no rule or one rule, and one only through a line that
    starts with [forward .] among the 9 lines after it, no line between the
    two containing a closing brace: the target is the third field of that
    line. *)
Theorem lookahead_bound (lines : list gostring) (i : nat) :
  rulesOfLine lines i = [] \/
  exists j l r,
    rulesOfLine lines i = [r] /\
    i < j <= i + 9 /\
    nth_error lines j = Some l /\
    HasPrefix (TrimSpace l) (lit "forward .") = true /\
    TargetIP r = nth 2 (Fields (TrimSpace l)) [] /\
    forall k, i < k < j ->
      exists l', nth_error lines k = Some l' /\
                 HasPrefix (TrimSpace l') (lit "forward .") = false /\
                 Contains (TrimSpace l') (lit "}") = false.
Proof.
  unfold rulesOfLine. destruct (nth_error lines i) as [line|]; [| now left].
  unfold parseLine.
  destruct (negb (Contains _ _)); [now left |].
  destruct (_ && _); [now left |].
  destruct (_ || _); [now left |].
  destruct (domainNames _) as [[serviceName namespace] fq].
  destruct (eqb namespace (lit "")); [now left |].
  destruct (lookForward_cases lines (i + 1) 9 serviceName namespace fq [])
    as [Hsame | [k [l [Hk [Hl [Hfw [Heq Hbefore]]]]]]]; [now left |].
  right. exists (i + 1 + k), l. eexists. split; [exact Heq |].
  split; [lia |]. split; [exact Hl |]. split; [exact Hfw |]. split; [reflexivity |].
  intros k' Hk'. replace k' with (i + 1 + (k' - i - 1)) by lia.
  apply Hbefore. lia.
Qed.

End ParserClaims.

(** * Parsing what was rendered *)
Section RoundTrip.
Import strings strings_facts space_facts delete_facts.

(** The [forward] line of a block. *)
Lemma forward_line (ip : gostring) :
  ip <> [] -> ContainsSpace ip = false ->
  TrimSpace (lit "    forward . " ++ ip) = lit "forward . " ++ ip /\
  Fields (lit "forward . " ++ ip) = [lit "forward"; lit "."; ip].
Proof.
  intros Hne Hip. split.
  - unfold TrimSpace.
    change (lit "    forward . " ++ ip)
      with (" " :: " " :: " " :: " " :: lit "forward . " ++ ip)%char.
    rewrite !TrimLeftSpace_sp. fold (TrimSpace (lit "forward . " ++ ip)).
    apply TrimSpace_id.
    + change (lit "forward . " ++ ip) with (lit "forward" ++ lit " . " ++ ip).
      now apply spaceWidth_app.
    + now apply spaceWidthRev_app.
  - unfold Fields.
    change (lit "forward . " ++ ip)
      with (lit "forward" ++ " "%char :: lit "." ++ " "%char :: ip).
    rewrite !fieldsFrom_sp by reflexivity.
    rewrite fieldsFrom_free by assumption.
    rewrite !app_nil_r, !flushField_rev by (assumption || discriminate). reflexivity.
Qed.

(** The scan from a header stops on a [forward] line with its rule ... *)
Lemma lookForward_found (lines : list gostring) (j n : nat) (ip : gostring)
    (serviceName namespace : gostring) (isFullFQDN : bool) (rules : list ForwardRule) :
  ip <> [] -> ContainsSpace ip = false ->
  nth_error lines j = Some (lit "    forward . " ++ ip) ->
  lookForward lines j (S n) serviceName namespace isFullFQDN rules
  = rules ++ [ {| Namespace := namespace; ServiceName := serviceName;
                  TargetIP := ip; IsFullFQDN := isFullFQDN |} ].
Proof.
  intros Hne Hip Hnth. destruct (forward_line ip Hne Hip) as [Htrim Hfields].
  cbn [lookForward]. rewrite Hnth, Htrim.
  change (HasPrefix (lit "forward . " ++ ip) (lit "forward .")) with true.
  cbn match. rewrite Hfields. reflexivity.
Qed.

(** ... stops without a rule on a closing brace ... *)
Lemma lookForward_brace (lines : list gostring) (j n : nat)
    (serviceName namespace : gostring) (isFullFQDN : bool) (rules : list ForwardRule) :
  nth_error lines j = Some (lit "}") ->
  lookForward lines j n serviceName namespace isFullFQDN rules = rules.
Proof.
  intros Hnth. destruct n as [|n]; [reflexivity |].
  cbn [lookForward]. rewrite Hnth. reflexivity.
Qed.

(** ... and passes a line that is neither. *)
Lemma lookForward_pass (lines : list gostring) (j n : nat) (l : gostring)
    (serviceName namespace : gostring) (isFullFQDN : bool) (rules : list ForwardRule) :
  nth_error lines j = Some l ->
  HasPrefix (TrimSpace l) (lit "forward .") = false ->
  Contains (TrimSpace l) (lit "}") = false ->
  lookForward lines j (S n) serviceName namespace isFullFQDN rules
  = lookForward lines (S j) n serviceName namespace isFullFQDN rules.
Proof. intros Hnth Hfw Hbr. cbn [lookForward]. now rewrite Hnth, Hfw, Hbr. Qed.

(** A line followed by the closing brace emits no rule. *)
Lemma parseLine_before_brace (lines : list gostring) (i : nat) (line : gostring)
    (rules : list ForwardRule) :
  nth_error lines (i + 1) = Some (lit "}") -> parseLine lines i line rules = rules.
Proof.
  intros Hnth. unfold parseLine.
  destruct (negb (Contains _ _)); [reflexivity |].
  destruct (_ && _); [reflexivity |].
  destruct (_ || _); [reflexivity |].
  destruct (domainNames _) as [[serviceName namespace] fq].
  destruct (eqb namespace (lit "")); [reflexivity |].
  now apply lookForward_brace.
Qed.

(** The line of the closing brace emits no rule. *)
Lemma parseLine_brace (lines : list gostring) (i : nat) (rules : list ForwardRule) :
  parseLine lines i (lit "}") rules = rules.
Proof. reflexivity. Qed.

(** A line that does not end with an opening brace emits no rule. *)
Lemma parseLine_no_brace (lines : list gostring) (i : nat) (line : gostring)
    (rules : list ForwardRule) :
  HasSuffix (TrimSpace line) (lit "{") = false ->
  HasSuffix (TrimSpace line) (lit "{ ") = false ->
  parseLine lines i line rules = rules.
Proof.
  intros H1 H2. unfold parseLine. rewrite H1, H2.
  destruct (negb (Contains _ _)); reflexivity.
Qed.

(** The header line [<domain>:53 {]. *)
Lemma header_line (dp : gostring) :
  dp <> [] -> ContainsSpace dp = false ->
  let h := dp ++ lit ":53 {" in
  TrimSpace h = h /\ Contains h (lit ":53") = true /\
  HasSuffix h (lit "{") = true /\ domainPartOf h = dp.
Proof.
  intros Hne Hdp h.
  assert (Hh : h = (dp ++ lit ":53 ") ++ lit "{") by (unfold h; now rewrite <- app_assoc).
  split; [| split; [| split]].
  - apply TrimSpace_id.
    + now apply spaceWidth_app.
    + rewrite Hh. apply spaceWidthRev_app; [discriminate | reflexivity |].
      unfold asciiLast. now rewrite rev_app_distr.
  - apply Contains_app_r. reflexivity.
  - rewrite Hh. apply HasSuffix_app.
  - unfold domainPartOf. rewrite Hh, TrimSuffix_app.
    change (dp ++ lit ":53 ") with (dp ++ lit ":53" ++ lit " ").
    rewrite app_assoc, TrimSuffix_app, TrimSuffix_app. now apply TrimSpace_free.
Qed.

(** *** The full name of a rule made of tokens *)
Section Names.
Variable rule : ForwardRule.
Hypothesis namespace_not_empty : Namespace rule <> [].
Hypothesis namespace_no_dot : Contains (Namespace rule) (lit ".") = false.
Hypothesis service_no_dot : Contains (ServiceName rule) (lit ".") = false.
Hypothesis namespace_no_space : ContainsSpace (Namespace rule) = false.
Hypothesis service_no_space : ContainsSpace (ServiceName rule) = false.

Lemma fullName_not_nil : GetFullName rule <> [].
Proof.
  unfold GetFullName. destruct (negb _); [| assumption].
  intros Heq. apply app_eq_nil in Heq as [_ Heq]. discriminate.
Qed.

Lemma fullName_no_space : ContainsSpace (GetFullName rule) = false.
Proof.
  unfold GetFullName. destruct (negb _); [| assumption].
  now apply ContainsSpace_join.
Qed.

Lemma fullName_dots : (Count (GetFullName rule) "." <= 1)%Z.
Proof.
  unfold GetFullName. destruct (negb _).
  - rewrite !Count_app, (Count_zero _ _ namespace_no_dot),
      (Count_zero _ _ service_no_dot). reflexivity.
  - rewrite (Count_zero _ _ namespace_no_dot). lia.
Qed.

Lemma fullName_no_suffix :
  HasSuffix (GetFullName rule) (lit ".svc.cluster.local") = false.
Proof.
  apply HasSuffix_false. intros t Ht. pose proof fullName_dots as Hd.
  rewrite Ht, Count_app in Hd. pose proof (Count_nonneg t ".").
  change (Count (lit ".svc.cluster.local") ".") with 3%Z in Hd. lia.
Qed.

Lemma fullName_split :
  match SplitN2 (GetFullName rule) "." with
  | [part0; part1] => (part0, part1)
  | parts => (lit "", nth 0 parts [])
  end = (ServiceName rule, Namespace rule).
Proof.
  unfold GetFullName. destruct (eqb (ServiceName rule) (lit "")) eqn:Hs; cbn [negb].
  - apply eqb_true in Hs. rewrite Hs, SplitN2_no_sep by assumption. reflexivity.
  - change (lit "." ++ Namespace rule) with ("."%char :: Namespace rule).
    rewrite SplitN2_first by assumption. reflexivity.
Qed.

Lemma fullName_parse :
  ParseNameInput (GetFullName rule) = (ServiceName rule, Namespace rule, false).
Proof.
  unfold ParseNameInput. rewrite (TrimSpace_free _ fullName_no_space).
  rewrite fullName_no_suffix. pose proof fullName_split as Hsp.
  destruct (SplitN2 (GetFullName rule) ".") as [|p0 [|p1 [|p2 ps]]];
    injection Hsp as <- <-; reflexivity.
Qed.

Lemma fullName_not_dot : GetFullName rule <> lit ".".
Proof.
  unfold GetFullName. destruct (negb _).
  - intros Heq. apply (f_equal (@length ascii)) in Heq.
    rewrite !length_app in Heq. cbn in Heq.
    destruct (Namespace rule); [congruence | cbn in Heq; lia].
  - intros Heq. rewrite Heq in namespace_no_dot. discriminate.
Qed.

End Names.

(** The header line of a domain that is not excluded hands over to the
    scan for the [forward] line. *)
Lemma parseLine_header (lines : list gostring) (i : nat) (dp : gostring)
    (serviceName namespace : gostring) (isFullFQDN : bool) (rules : list ForwardRule) :
  dp <> [] -> ContainsSpace dp = false ->
  dp <> lit "." -> dp <> lit "cluster.local" ->
  domainNames dp = (serviceName, namespace, isFullFQDN) ->
  namespace <> [] ->
  parseLine lines i (dp ++ lit ":53 {") rules
  = lookForward lines (i + 1) 9 serviceName namespace isFullFQDN rules.
Proof.
  intros Hne Hsp Hdot Hcl Hdom Hns.
  destruct (header_line dp Hne Hsp) as [Htrim [Hport [Hbrace Hdp]]].
  unfold parseLine. rewrite Htrim, Hport, Hbrace, Hdp. cbn [negb andb].
  rewrite (proj2 (eqb_false dp (lit "")) Hne), (proj2 (eqb_false dp (lit ".")) Hdot),
    (proj2 (eqb_false dp (lit "cluster.local")) Hcl). cbn [orb].
  rewrite Hdom. now rewrite (proj2 (eqb_false namespace (lit "")) Hns).
Qed.

Lemma HasPrefix_app_l (a b p : gostring) :
  length p <= length a -> HasPrefix (a ++ b) p = HasPrefix a p.
Proof.
  revert a. induction p as [|c p IH]; intros a Hlen; [reflexivity |].
  destruct a as [|d a]; cbn in *; [lia |]. rewrite IH by lia. reflexivity.
Qed.

Lemma HasSuffix_app_r (a b suf : gostring) :
  length suf <= length b -> HasSuffix (a ++ b) suf = HasSuffix b suf.
Proof.
  intros Hlen. unfold HasSuffix. rewrite rev_app_distr.
  apply HasPrefix_app_l. now rewrite !length_rev.
Qed.

(** The [rewrite] line of a block: it is passed by the scan, and is no
    header. *)
Lemma rewrite_line (body : gostring) :
  Contains body (lit "}") = false ->
  let l := lit "    " ++ lit "rewrite name " ++ body ++ lit " answer auto" in
  HasPrefix (TrimSpace l) (lit "forward .") = false /\
  Contains (TrimSpace l) (lit "}") = false /\
  HasSuffix (TrimSpace l) (lit "{") = false /\
  HasSuffix (TrimSpace l) (lit "{ ") = false.
Proof.
  intros Hbody l.
  assert (Htrim : TrimSpace l = lit "rewrite name " ++ body ++ lit " answer auto").
  { unfold l, TrimSpace.
    change (lit "    " ++ lit "rewrite name " ++ body ++ lit " answer auto")
      with (" " :: " " :: " " :: " " ::
            lit "rewrite name " ++ body ++ lit " answer auto")%char.
    rewrite !TrimLeftSpace_sp.
    fold (TrimSpace (lit "rewrite name " ++ body ++ lit " answer auto")).
    apply TrimSpace_id.
    - change (lit "rewrite name " ++ body ++ lit " answer auto")
        with (lit "rewrite" ++ lit " name " ++ body ++ lit " answer auto").
      now apply spaceWidth_app.
    - replace (lit "rewrite name " ++ body ++ lit " answer auto")
        with ((lit "rewrite name " ++ body ++ lit " answer ") ++ lit "auto")
        by now rewrite <- !app_assoc.
      apply spaceWidthRev_app; [discriminate | reflexivity |].
      unfold asciiLast. now rewrite !rev_app_distr. }
  rewrite Htrim. split; [reflexivity |]. split; [| split].
  - change (lit "}") with ["}"%char] in *.
    rewrite !Contains_byte_app, Hbody. reflexivity.
  - rewrite app_assoc, HasSuffix_app_r; [reflexivity | cbn; lia].
  - rewrite app_assoc, HasSuffix_app_r; [reflexivity | cbn; lia].
Qed.

Lemma exact_line (fn : gostring) :
  lit "    " ++ lit "rewrite name exact " ++ fn ++ lit " " ++ fn
    ++ lit ".svc.cluster.local. answer auto"
  = lit "    " ++ lit "rewrite name "
      ++ (lit "exact " ++ fn ++ lit " " ++ fn ++ lit ".svc.cluster.local.")
      ++ lit " answer auto".
Proof. unfold lit. cbn [list_ascii_of_string]. app_norm. reflexivity. Qed.

Lemma regex_line (ns : gostring) :
  lit "    " ++ lit "rewrite name regex (.*)\." ++ ns ++ lit " " ++ ns
    ++ lit ".svc.cluster.local. answer auto"
  = lit "    " ++ lit "rewrite name "
      ++ (lit "regex (.*)\." ++ ns ++ lit " " ++ ns ++ lit ".svc.cluster.local.")
      ++ lit " answer auto".
Proof. unfold lit. cbn [list_ascii_of_string]. app_norm. reflexivity. Qed.

(** C1, as the code has it.  For a rule whose namespace is not empty, whose
    namespace and service name hold no dot and no white space, and whose
    target is not empty and holds no white space, and which, when it is not
    FQDN, has a full name without closing brace and other than
    [cluster.local]: parsing the rendered block yields that rule alone. *)
Theorem parse_render_roundtrip (rule : ForwardRule) :
  Namespace rule <> [] -> TargetIP rule <> [] ->
  Contains (Namespace rule) (lit ".") = false ->
  Contains (ServiceName rule) (lit ".") = false ->
  ContainsSpace (Namespace rule) = false ->
  ContainsSpace (ServiceName rule) = false ->
  ContainsSpace (TargetIP rule) = false ->
  (IsFullFQDN rule = false ->
   Contains (GetFullName rule) (lit "}") = false /\
   GetFullName rule <> lit "cluster.local") ->
  parseForwardRules (ToCorefile rule) = [rule].
Proof.
  intros Hns Hip Hnd Hsd Hnw Hsw Hiw Hshort.
  pose proof (fullName_not_nil rule Hns) as Hfn.
  pose proof (fullName_no_space rule Hnw Hsw) as Hfw.
  pose proof (fullName_no_suffix rule Hnd Hsd) as Hfs.
  pose proof (fullName_split rule Hnd Hsd) as Hsplit.
  pose proof (fullName_parse rule Hnd Hsd Hnw Hsw) as Hparse.
  pose proof (fullName_not_dot rule Hns Hnd Hnw) as Hdot.
  pose proof (ContainsSpace_no_newline _ Hfw) as Hfnl.
  pose proof (ContainsSpace_no_newline _ Hiw) as Hinl.
  pose proof (ContainsSpace_no_newline _ Hnw) as Hnnl.
  assert (Hrule : forall fq, IsFullFQDN rule = fq ->
            {| Namespace := Namespace rule; ServiceName := ServiceName rule;
               TargetIP := TargetIP rule; IsFullFQDN := fq |} = rule).
  { intros fq <-. now destruct rule. }
  rewrite ToCorefile_block. unfold parseForwardRules, block.
  destruct (IsFullFQDN rule) eqn:Hfq.
  - (* FQDN *)
    clear Hshort. set (dp := GetFullName rule ++ lit ".svc.cluster.local").
    replace ((GetFullName rule ++ lit ".svc.cluster.local:53") ++ lit " {")
      with (dp ++ lit ":53 {") by (unfold dp; now rewrite <- !app_assoc).
    cbn [map app]. unfold nl. rewrite Split_Join; [| discriminate |].
    + match goal with |- parseLoop ?l _ _ _ = _ => set (lines := l) at 1 end. cbn [parseLoop].
      rewrite parseLine_brace.
      rewrite (parseLine_before_brace lines 1) by reflexivity.
      rewrite (parseLine_header lines 0 dp (ServiceName rule) (Namespace rule) true).
      * rewrite (lookForward_found lines (0 + 1) 8 (TargetIP rule)) by (assumption || reflexivity).
        cbn [app]. f_equal. now apply Hrule.
      * unfold dp. intros Heq. apply app_eq_nil in Heq as [_ Heq]. discriminate.
      * unfold dp. change (lit ".svc.cluster.local") with ("."%char :: lit "svc.cluster.local").
        now apply ContainsSpace_join.
      * unfold dp. intros Heq. apply (f_equal (@length ascii)) in Heq.
        rewrite length_app in Heq. cbn in Heq. lia.
      * unfold dp. intros Heq. apply (f_equal (@length ascii)) in Heq.
        rewrite length_app in Heq. cbn in Heq. lia.
      * unfold domainNames, dp. rewrite HasSuffix_app, TrimSuffix_app. cbn zeta.
        now rewrite Hparse.
      * assumption.
    + unfold dp. repeat constructor; cbn [app];
        rewrite ?Contains_byte_app, ?Hfnl, ?Hinl; reflexivity.
  - destruct (Hshort eq_refl) as [Hbr Hcl].
    assert (Hdom : domainNames (GetFullName rule)
                   = (ServiceName rule, Namespace rule, false)).
    { unfold domainNames. rewrite Hfs.
      destruct (SplitN2 (GetFullName rule) ".") as [|p0 [|p1 [|p2 ps]]];
        injection Hsplit as <- <-; reflexivity. }
    destruct (negb (eqb (ServiceName rule) (lit ""))) eqn:Hsvc.
    + (* service.namespace *)
      replace ((GetFullName rule ++ lit ":53") ++ lit " {")
        with (GetFullName rule ++ lit ":53 {") by now rewrite <- !app_assoc.
      cbn [map app]. rewrite (exact_line (GetFullName rule)).
      unfold nl. rewrite Split_Join; [| discriminate |].
      * match goal with |- parseLoop ?l _ _ _ = _ => set (lines := l) at 1 end. cbn [parseLoop].
        pose proof (rewrite_line (lit "exact " ++ GetFullName rule ++ lit " " ++
                                  GetFullName rule ++ lit ".svc.cluster.local.")) as Hrw.
        destruct Hrw as [Hrw1 [Hrw2 [Hrw3 Hrw4]]].
        { change (lit "}") with ["}"%char] in *.
          rewrite !Contains_byte_app, Hbr. reflexivity. }
        rewrite parseLine_brace.
        rewrite (parseLine_before_brace lines 2) by reflexivity.
        rewrite (parseLine_no_brace lines 1).
        -- rewrite (parseLine_header lines 0 (GetFullName rule)
                      (ServiceName rule) (Namespace rule) false) by assumption.
           rewrite (lookForward_pass lines (0 + 1) 8 _ _ _ _ _ eq_refl).
           ++ rewrite (lookForward_found lines 2 7 (TargetIP rule))
                by (assumption || reflexivity).
              cbn [app]. f_equal. now apply Hrule.
           ++ exact Hrw1.
           ++ exact Hrw2.
        -- exact Hrw3.
        -- exact Hrw4.
      * repeat constructor; cbn [app];
          rewrite ?Contains_byte_app, ?Hfnl, ?Hinl; reflexivity.
    + (* namespace only *)
      assert (Hfull : GetFullName rule = Namespace rule).
      { unfold GetFullName. now rewrite Hsvc. }
      rewrite Hfull in *.
      replace ((Namespace rule ++ lit ":53") ++ lit " {")
        with (Namespace rule ++ lit ":53 {") by now rewrite <- !app_assoc.
      cbn [map app]. rewrite (regex_line (Namespace rule)).
      unfold nl. rewrite Split_Join; [| discriminate |].
      * match goal with |- parseLoop ?l _ _ _ = _ => set (lines := l) at 1 end. cbn [parseLoop].
        pose proof (rewrite_line (lit "regex (.*)\." ++ Namespace rule ++ lit " " ++
                                  Namespace rule ++ lit ".svc.cluster.local.")) as Hrw.
        destruct Hrw as [Hrw1 [Hrw2 [Hrw3 Hrw4]]].
        { change (lit "}") with ["}"%char] in *.
          rewrite !Contains_byte_app, Hbr. reflexivity. }
        rewrite parseLine_brace.
        rewrite (parseLine_before_brace lines 2) by reflexivity.
        rewrite (parseLine_no_brace lines 1).
        -- rewrite (parseLine_header lines 0 (Namespace rule)
                      (ServiceName rule) (Namespace rule) false) by assumption.
           rewrite (lookForward_pass lines (0 + 1) 8 _ _ _ _ _ eq_refl).
           ++ rewrite (lookForward_found lines 2 7 (TargetIP rule))
                by (assumption || reflexivity).
              cbn [app]. f_equal. now apply Hrule.
           ++ exact Hrw1.
           ++ exact Hrw2.
        -- exact Hrw3.
        -- exact Hrw4.
      * repeat constructor; cbn [app];
          rewrite ?Contains_byte_app, ?Hnnl, ?Hinl; reflexivity.
Qed.

End RoundTrip.

(** * The client cache *)
Section CacheClaims.
Context `{ClientGo}.

Lemma GetClient_miss (cluster : Cluster) (w w1 : World) (c : Clientset) :
  clients (manager w) !! ID cluster = None ->
  GetClient cluster w = (Ok c, w1) ->
  c = constructed w /\ constructed w1 = S (constructed w) /\
  clients (manager w1) = <[ID cluster := c]> (clients (manager w)).
Proof.
  intros Hmiss. unfold GetClient. rewrite Hmiss. unfold bind.
  destruct (createClient cluster w) as [r w0] eqn:Hc.
  apply createClient_frame in Hc as [_ [Hm Hr]].
  destruct r as [c0 | e | msg]; intros [= <- <-]. destruct Hr as [-> Hn].
  cbn. rewrite Hm. auto.
Qed.

Lemma GetClient_cacheOk (cluster : Cluster) (w w1 : World) (r : result Clientset) :
  cacheOk w -> GetClient cluster w = (r, w1) -> cacheOk w1.
Proof.
  intros Hok. unfold GetClient.
  destruct (clients (manager w) !! ID cluster) as [c0|] eqn:Hl.
  - now intros [= <- <-].
  - unfold bind. destruct (createClient cluster w) as [r0 w0] eqn:Hc.
    apply createClient_frame in Hc as [_ [Hm Hr]].
    destruct r0 as [c | e | msg]; intros [= <- <-].
    + destruct Hr as [-> Hn]. intros id client. cbn. rewrite Hm, Hn.
      destruct (decide (ID cluster = id)) as [<- | Hne].
      * rewrite lookup_insert_eq. intros [= <-]. lia.
      * rewrite lookup_insert_ne by assumption. intros Hid. specialize (Hok _ _ Hid). lia.
    + intros id client. rewrite Hm, Hr. apply Hok.
    + intros id client. rewrite Hm, Hr. apply Hok.
Qed.

Lemma GetClient_other (cluster : Cluster) (w w1 : World) (r : result Clientset)
    (clusterID : gostring) :
  clusterID <> ID cluster -> GetClient cluster w = (r, w1) ->
  clients (manager w1) !! clusterID = clients (manager w) !! clusterID.
Proof.
  intros Hne. unfold GetClient.
  destruct (clients (manager w) !! ID cluster) as [c0|] eqn:Hl.
  - now intros [= <- <-].
  - unfold bind. destruct (createClient cluster w) as [r0 w0] eqn:Hc.
    apply createClient_frame in Hc as [_ [Hm _]].
    destruct r0 as [c | e | msg]; intros [= <- <-]; cbn; rewrite Hm; [| reflexivity ..].
    apply lookup_insert_ne. congruence.
Qed.

Lemma RemoveClient_absent (clusterID : gostring) (w : World) :
  clients (manager w) !! clusterID = None -> RemoveClient clusterID w = (Ok tt, w).
Proof.
  intros Habs. unfold RemoveClient, onClients. rewrite (delete_id _ _ Habs).
  destruct w as [[m] n a]. reflexivity.
Qed.

Lemma TestConnection_run (cluster : Cluster) (w w1 : World) (c : Clientset) :
  GetClient cluster w = (Ok c, w1) ->
  TestConnection cluster w =
    match serverVersion (api w) with
    | None => (Ok tt, onApi (logged ReqServerVersion) w1)
    | Some e =>
        (Err (lit "failed to connect to cluster: " ++ e),
         onApi (logged ReqServerVersion) (onClients (delete (ID cluster)) w1))
    end.
Proof.
  intros Hg. pose proof (GetClient_frame _ _ _ _ Hg) as Hapi.
  unfold TestConnection, bind. rewrite Hg.
  unfold Discovery_ServerVersion, request. rewrite Hapi.
  destruct (serverVersion (api w)) as [e|]; [| reflexivity].
  unfold RemoveClient, fail. cbn. now rewrite app_nil_r.
Qed.

(** C9, as the code has it.  The entry of a cluster identifier is absent or
    live.  A [GetClient] that returns a handle leaves it cached, and the next
    [GetClient] returns the same handle and changes nothing.
    [TestConnection] gets the handle first: when the liveness call fails it
    removes the entry and returns the connectivity error, and a [GetClient]
    after it constructs a handle that is not the removed one; when the call
    succeeds the cache is what [GetClient] left, unchanged if the identifier
    was cached and with the new handle if it was absent.  Removing an absent
    identifier changes nothing, and no entry of another identifier is
    touched. *)
Theorem cache_state_machine (cluster : Cluster) (w w1 : World) (c : Clientset) :
  GetClient cluster w = (Ok c, w1) ->
  (clients (manager w1) !! ID cluster = Some c /\
   GetClient cluster w1 = (Ok c, w1)) /\
  (forall e, serverVersion (api w) = Some e ->
     let w2 := onApi (logged ReqServerVersion) (onClients (delete (ID cluster)) w1) in
     TestConnection cluster w = (Err (lit "failed to connect to cluster: " ++ e), w2) /\
     clients (manager w2) !! ID cluster = None /\
     (cacheOk w -> forall c' w3,
        GetClient cluster w2 = (Ok c', w3) ->
        c' <> c /\ c' = constructed w2 /\ constructed w3 = S (constructed w2) /\
        clients (manager w3) !! ID cluster = Some c')) /\
  (serverVersion (api w) = None ->
     TestConnection cluster w = (Ok tt, onApi (logged ReqServerVersion) w1) /\
     (clients (manager w) !! ID cluster = Some c -> manager w1 = manager w) /\
     (clients (manager w) !! ID cluster = None ->
        clients (manager w1) = <[ID cluster := c]> (clients (manager w)))) /\
  (forall clusterID, clients (manager w) !! clusterID = None ->
     RemoveClient clusterID w = (Ok tt, w)) /\
  (forall clusterID r w', clusterID <> ID cluster ->
     TestConnection cluster w = (r, w') ->
     clients (manager w') !! clusterID = clients (manager w) !! clusterID).
Proof.
  intros Hg. pose proof (TestConnection_run _ _ _ _ Hg) as Hrun.
  split; [| split; [| split; [| split]]].
  - split; [now apply (GetClient_cached cluster w) | now apply (GetClient_again cluster w)].
  - intros e He w2. rewrite He in Hrun. split; [exact Hrun |].
    split; [cbn; apply lookup_delete_eq |].
    intros Hok c' w3 Hg2.
    assert (Hmiss : clients (manager w2) !! ID cluster = None)
      by (cbn; apply lookup_delete_eq).
    destruct (GetClient_miss _ _ _ _ Hmiss Hg2) as [Hc' [Hn Hm]].
    pose proof (GetClient_cacheOk _ _ _ _ Hok Hg) as Hok1.
    pose proof (Hok1 _ _ (GetClient_cached _ _ _ _ Hg)) as Hlt.
    split; [| split; [exact Hc' | split; [exact Hn |]]].
    + rewrite Hc'. cbn. lia.
    + rewrite Hm. apply lookup_insert_eq.
  - intros Hv. rewrite Hv in Hrun. split; [exact Hrun |]. split.
    + intros Hhit. rewrite (GetClient_hit _ _ _ Hhit) in Hg.
      injection Hg as Hw. now rewrite <- Hw.
    + intros Hmiss. now destruct (GetClient_miss _ _ _ _ Hmiss Hg) as [_ [_ Hm]].
  - intros clusterID Habs. now apply RemoveClient_absent.
  - intros clusterID r w' Hne. rewrite Hrun.
    destruct (serverVersion (api w)); intros [= <- <-]; cbn.
    + rewrite lookup_delete_ne by congruence. now apply (GetClient_other cluster w w1 (Ok c)).
    + now apply (GetClient_other cluster w w1 (Ok c)).
Qed.

End CacheClaims.

(** * The theorems at concrete inputs *)

(** The rule [cluster.local:53] is rendered and not parsed back: its header
    is the excluded zone [cluster.local]. *)
Lemma roundtrip_cluster_local :
  (Namespace clusterLocalRule = lit "local" /\
   ServiceName clusterLocalRule = lit "cluster" /\
   strings.Contains (Namespace clusterLocalRule) (lit ".") = false /\
   strings.Contains (ServiceName clusterLocalRule) (lit ".") = false /\
   ContainsSpace (Namespace clusterLocalRule) = false /\
   ContainsSpace (ServiceName clusterLocalRule) = false /\
   ContainsSpace (TargetIP clusterLocalRule) = false) /\
  ToCorefile clusterLocalRule =
    lit "cluster.local:53 {" ++ nl ++
    lit "    rewrite name exact cluster.local cluster.local.svc.cluster.local. answer auto" ++ nl ++
    lit "    forward . 10.96.0.10" ++ nl ++
    lit "}" /\
  parseForwardRules (ToCorefile clusterLocalRule) = [].
Proof. vm_compute. repeat split. Qed.

(** A closing brace in the name stops the scan on the [rewrite] line. *)
Lemma roundtrip_brace :
  strings.Contains (Namespace braceRule) (lit ".") = false /\
  ContainsSpace (Namespace braceRule) = false /\
  parseForwardRules (ToCorefile braceRule) = [].
Proof. vm_compute. repeat split. Qed.

Lemma parse_render_roundtrip_witness :
  parseForwardRules (ToCorefile mysqlRule) = [mysqlRule].
Proof.
  apply parse_render_roundtrip; try reflexivity; try discriminate.
  intros _. split; [reflexivity | discriminate].
Defined.

Lemma parse_scenario : parseForwardRules scenario = [prodRule].
Proof. vm_compute. reflexivity. Qed.

Lemma AddForwardRule_duplicate_witness :
  exists w',
    AddForwardRule (H := plainClientGo) exampleCluster
      {| Namespace := lit "prod"; ServiceName := lit "";
         TargetIP := lit "10.96.0.99"; IsFullFQDN := false |}
      (exampleWorld scenario)
    = (Err (lit "forward rule for prod already exists"), w') /\
    configMap (api w') = configMap (api (exampleWorld scenario)) /\
    requests (api w') = [ReqGetConfigMap; ReqGetService].
Proof.
  eexists.
  eapply (AddForwardRule_duplicate (H := plainClientGo) exampleCluster
            {| Namespace := lit "prod"; ServiceName := lit "";
               TargetIP := lit "10.96.0.99"; IsFullFQDN := false |}
            (exampleWorld scenario)).
  - vm_compute. reflexivity.
  - exists prodRule. split; [| reflexivity]. vm_compute. left. reflexivity.
Defined.



Lemma DeleteForwardRule_absent_witness :
  deleteFromCorefile scenario (lit "staging") false = scenario /\
  exists w',
    DeleteForwardRule (H := plainClientGo) exampleCluster (lit "staging") false
      (exampleWorld scenario) = (Ok tt, w') /\
    requests (api w') =
      [ReqGetConfigMap; ReqGetService; ReqGetConfigMap;
       ReqUpdateConfigMap
         {| Data := Some (<[CorefileName := scenario]> {[ CorefileName := scenario ]}) |}].
Proof.
  assert (Hd : default [] (({[ CorefileName := scenario ]} : gmap gostring gostring)
                           !! CorefileName) = scenario)
    by (rewrite lookup_singleton_eq; reflexivity).
  destruct (DeleteForwardRule_absent (H := plainClientGo) exampleCluster (lit "staging")
              false (exampleWorld scenario)
              {| manager := {| clients := {[ ID exampleCluster := 0 ]} |};
                 constructed := 1; api := exampleApi scenario |}
              0 {| Data := Some {[ CorefileName := scenario ]} |}
              {[ CorefileName := scenario ]} {| ClusterIP := lit "10.96.0.10" |})
    as [Htext [w' [Hrun [_ Hreq]]]].
  - unfold GetClient. cbn. rewrite lookup_empty. cbn. rewrite insert_empty. reflexivity.
  - reflexivity.
  - reflexivity.
  - reflexivity.
  - reflexivity.
  - rewrite Hd. vm_compute. reflexivity.
  - rewrite Hd in Htext, Hreq. split; [exact Htext |]. exists w'. split; [exact Hrun |].
    exact Hreq.
Defined.

Lemma domain_exclusion_witness :
  parseForwardRules scenario
  = flat_map (rulesOfLine (strings.Split scenario "010"))
             (seq 0 (length (strings.Split scenario "010"))) /\
  rulesOfLine (strings.Split scenario "010") 0 = [].
Proof.
  destruct (domain_exclusion scenario) as [Hall Hline]. split; [exact Hall |].
  apply (Hline 0 (lit ".:53 {")); [reflexivity |].
  right. left. vm_compute. reflexivity.
Defined.

(** On a manager that has no client for the cluster, a [TestConnection] that
    succeeds leaves one in the cache. *)
Lemma probe_success_fills_cache :
  clients (manager (exampleWorld scenario)) !! ID exampleCluster = None /\
  fst (TestConnection (H := plainClientGo) exampleCluster (exampleWorld scenario)) = Ok tt /\
  clients (manager (snd (TestConnection (H := plainClientGo) exampleCluster
                           (exampleWorld scenario)))) !! ID exampleCluster = Some 0.
Proof. vm_compute. repeat split. Qed.

Lemma cache_state_machine_witness :
  exists w1,
    GetClient (H := plainClientGo) exampleCluster (exampleWorld scenario) = (Ok 0, w1) /\
    clients (manager w1) !! ID exampleCluster = Some 0 /\
    GetClient (H := plainClientGo) exampleCluster w1 = (Ok 0, w1).
Proof.
  eexists. split; [vm_compute; reflexivity |].
  eapply (proj1 (cache_state_machine (H := plainClientGo) exampleCluster
                   (exampleWorld scenario) _ 0 _)).
  Unshelve. vm_compute. reflexivity.
Defined.

(** * More about the parser: what a line reads, and texts put together *)
Section ParserLocality.
Import strings strings_facts space_facts delete_facts.

(** The scan reads the lines from [j] on: lines put in front do not matter. *)
Lemma lookForward_shift (pre post : list gostring) (j n : nat)
    (serviceName namespace : gostring) (isFullFQDN : bool) (rules : list ForwardRule) :
  lookForward (pre ++ post) (length pre + j) n serviceName namespace isFullFQDN rules
  = lookForward post j n serviceName namespace isFullFQDN rules.
Proof.
  revert j. induction n as [|n IH]; intros j; [reflexivity |]. cbn [lookForward].
  rewrite nth_error_app2 by lia. replace (length pre + j - length pre) with j by lia.
  destruct (nth_error post j) as [l|]; [| reflexivity].
  destruct (HasPrefix _ _); [reflexivity |].
  destruct (Contains _ _); [reflexivity |].
  replace (S (length pre + j)) with (length pre + S j) by lia. apply IH.
Qed.

Lemma parseLine_shift (pre post : list gostring) (i : nat) (line : gostring)
    (rules : list ForwardRule) :
  parseLine (pre ++ post) (length pre + i) line rules = parseLine post i line rules.
Proof.
  unfold parseLine.
  destruct (negb (Contains _ _)); [reflexivity |].
  destruct (_ && _); [reflexivity |].
  destruct (_ || _); [reflexivity |].
  destruct (domainNames _) as [[serviceName namespace] fq].
  destruct (eqb namespace (lit "")); [reflexivity |].
  replace (length pre + i + 1) with (length pre + (i + 1)) by lia.
  apply lookForward_shift.
Qed.

Lemma rulesOfLine_shift (pre post : list gostring) (i : nat) :
  rulesOfLine (pre ++ post) (length pre + i) = rulesOfLine post i.
Proof.
  unfold rulesOfLine. rewrite nth_error_app2 by lia.
  replace (length pre + i - length pre) with i by lia.
  destruct (nth_error post i); [apply parseLine_shift | reflexivity].
Qed.

(** The scan stops on the line of a closing brace: lines after it do not
    matter. *)
Lemma lookForward_closed (a1 t b : list gostring) (c : gostring) (j n : nat)
    (serviceName namespace : gostring) (isFullFQDN : bool) (rules : list ForwardRule) :
  TrimSpace c = lit "}" -> j <= length a1 ->
  lookForward ((a1 ++ c :: t) ++ b) j n serviceName namespace isFullFQDN rules
  = lookForward (a1 ++ c :: t) j n serviceName namespace isFullFQDN rules.
Proof.
  intros Hc. revert j. induction n as [|n IH]; intros j Hj; [reflexivity |].
  cbn [lookForward].
  destruct (Nat.eq_dec j (length a1)) as [-> | Hne].
  - assert (H1 : nth_error (a1 ++ c :: t) (length a1) = Some c)
      by (rewrite nth_error_app2, Nat.sub_diag by lia; reflexivity).
    rewrite (nth_error_app1 _ b) by (rewrite length_app; cbn; lia).
    rewrite H1, Hc. reflexivity.
  - rewrite (nth_error_app1 _ b) by (rewrite length_app; cbn; lia).
    destruct (nth_error (a1 ++ c :: t) j) as [l|]; [| reflexivity].
    destruct (HasPrefix _ _); [reflexivity |].
    destruct (Contains _ _); [reflexivity |].
    apply IH. lia.
Qed.

Lemma parseLine_no_port (lines : list gostring) (i : nat) (line : gostring)
    (rules : list ForwardRule) :
  Contains (TrimSpace line) (lit ":53") = false -> parseLine lines i line rules = rules.
Proof. intros Hp. unfold parseLine. now rewrite Hp. Qed.

Lemma rulesOfLine_closed (a1 t b : list gostring) (c : gostring) (i : nat) :
  TrimSpace c = lit "}" ->
  forallb (fun l => negb (Contains (TrimSpace l) (lit ":53"))) t = true ->
  i < length (a1 ++ c :: t) ->
  rulesOfLine ((a1 ++ c :: t) ++ b) i = rulesOfLine (a1 ++ c :: t) i.
Proof.
  intros Hc Ht Hi. unfold rulesOfLine. rewrite (nth_error_app1 _ b Hi).
  destruct (nth_error (a1 ++ c :: t) i) as [line|] eqn:Hnth; [| reflexivity].
  destruct (Nat.lt_ge_cases i (length a1)) as [Hlt | Hge].
  - unfold parseLine.
    destruct (negb (Contains _ _)); [reflexivity |].
    destruct (_ && _); [reflexivity |].
    destruct (_ || _); [reflexivity |].
    destruct (domainNames _) as [[serviceName namespace] fq].
    destruct (eqb namespace (lit "")); [reflexivity |].
    apply lookForward_closed; [exact Hc | lia].
  - rewrite nth_error_app2 in Hnth by lia.
    assert (Hport : Contains (TrimSpace line) (lit ":53") = false).
    { destruct (i - length a1) as [|k] eqn:Hk; cbn [nth_error] in Hnth.
      - injection Hnth as <-. rewrite Hc. reflexivity.
      - apply nth_error_In in Hnth. rewrite forallb_forall in Ht.
        specialize (Ht line Hnth). now apply negb_true_iff in Ht. }
    now rewrite !parseLine_no_port.
Qed.

Lemma flat_map_seq_shift {A} (f g : nat -> list A) (start start' len : nat) :
  (forall i, i < len -> f (start + i) = g (start' + i)) ->
  flat_map f (seq start len) = flat_map g (seq start' len).
Proof.
  revert start start'. induction len as [|len IH]; intros start start' Hfg; [reflexivity |].
  cbn [seq flat_map]. pose proof (Hfg 0) as H0. rewrite !Nat.add_0_r in H0.
  rewrite H0 by lia. f_equal. apply IH. intros i Hi.
  replace (S start + i) with (start + S i) by lia.
  replace (S start' + i) with (start' + S i) by lia. apply Hfg. lia.
Qed.

Lemma flat_map_seq_ext {A} (f g : nat -> list A) (start len : nat) :
  (forall i, i < len -> f (start + i) = g i) ->
  flat_map f (seq start len) = flat_map g (seq 0 len).
Proof. intros Hfg. apply flat_map_seq_shift. exact Hfg. Qed.

Lemma parse_app (a b : gostring) (a1 t : list gostring) (c : gostring) :
  Split a "010" = a1 ++ c :: t ->
  TrimSpace c = lit "}" ->
  forallb (fun l => negb (Contains (TrimSpace l) (lit ":53"))) t = true ->
  parseForwardRules (a ++ nl ++ b) = parseForwardRules a ++ parseForwardRules b.
Proof.
  intros Ha Hc Ht. rewrite !parseForwardRules_by_line.
  change (a ++ nl ++ b) with (a ++ "010"%char :: b). rewrite Split_app_sep, Ha.
  set (la := a1 ++ c :: t). set (lb := Split b "010").
  rewrite length_app, seq_app, flat_map_app. cbn [Nat.add].
  rewrite (flat_map_seq_ext (rulesOfLine (la ++ lb)) (rulesOfLine la) 0 (length la)).
  - rewrite (flat_map_seq_ext (rulesOfLine (la ++ lb)) (rulesOfLine lb)
               (length la) (length lb)); [reflexivity |].
    intros i _. apply rulesOfLine_shift.
  - intros i Hi. cbn [Nat.add]. now apply rulesOfLine_closed.
Qed.

(** X1. Two texts put together with a newline parse to the rules of the
    first followed by the rules of the second, when the first has a line
    whose trimmed form is the closing brace and no line with [:53] after
    it. *)
Theorem parse_concat (a b : gostring) (a1 t : list gostring) (c : gostring) :
  Split a "010" = a1 ++ c :: t ->
  TrimSpace c = lit "}" ->
  forallb (fun l => negb (Contains (TrimSpace l) (lit ":53"))) t = true ->
  parseForwardRules (a ++ nl ++ b) = parseForwardRules a ++ parseForwardRules b.
Proof. apply parse_app. Qed.

End ParserLocality.

(** * Adding a rule, and what the next read sees *)
Section AddRule.
Import strings strings_facts space_facts delete_facts.

Lemma Join_snoc (ls : list gostring) (e sep : gostring) :
  ls <> [] -> Join (ls ++ [e]) sep = Join ls sep ++ sep ++ e.
Proof.
  induction ls as [|l ls IH]; [intros Hn; now destruct Hn |]. intros _.
  destruct ls as [|l2 ls]; [reflexivity |].
  change ((l :: l2 :: ls) ++ [e]) with (l :: (l2 :: ls) ++ [e]).
  rewrite (Join_cons l ((l2 :: ls) ++ [e])) by (cbn; discriminate).
  rewrite IH by discriminate.
  rewrite (Join_cons l (l2 :: ls)) by discriminate. now rewrite <- !app_assoc.
Qed.

(** The rendered text ends with the line of the closing brace. *)
Lemma ToCorefile_last (r : ForwardRule) :
  exists X, ToCorefile r = X ++ "010"%char :: lit "}".
Proof.
  rewrite ToCorefile_block. unfold block.
  destruct (IsFullFQDN r); [| destruct (negb (eqb (ServiceName r) (lit "")))];
    rewrite app_comm_cons, Join_snoc by discriminate; eexists; reflexivity.
Qed.

Lemma parse_rendered_newline (rule : ForwardRule) :
  parseForwardRules (ToCorefile rule ++ nl) = parseForwardRules (ToCorefile rule).
Proof.
  destruct (ToCorefile_last rule) as [X HX].
  rewrite <- (app_nil_r (ToCorefile rule ++ nl)), <- app_assoc.
  rewrite (parse_app (ToCorefile rule) [] (Split X "010") [] (lit "}")).
  - apply app_nil_r.
  - rewrite HX, Split_app_sep. reflexivity.
  - reflexivity.
  - reflexivity.
Qed.

Lemma parse_added (corefile : gostring) (rule : ForwardRule)
    (a1 t : list gostring) (c : gostring) :
  Split corefile "010" = a1 ++ c :: t ->
  TrimSpace c = lit "}" ->
  forallb (fun l => negb (Contains (TrimSpace l) (lit ":53"))) t = true ->
  parseForwardRules (ToCorefile rule) = [rule] ->
  parseForwardRules (corefile ++ nl ++ ToCorefile rule ++ nl)
  = parseForwardRules corefile ++ [rule].
Proof.
  intros Ha Hc Ht Hround.
  rewrite (parse_app corefile (ToCorefile rule ++ nl) a1 t c Ha Hc Ht).
  now rewrite parse_rendered_newline, Hround.
Qed.

(** X2. The text [AddForwardRule] writes parses to the rules that were there
    followed by the new rule, when the Corefile has a line whose trimmed form
    is the closing brace with no line holding [:53] after it, and the rule
    is one that parses back from its rendering. *)
Theorem add_then_parse (corefile : gostring) (rule : ForwardRule)
    (a1 t : list gostring) (c : gostring) :
  Split corefile "010" = a1 ++ c :: t ->
  TrimSpace c = lit "}" ->
  forallb (fun l => negb (Contains (TrimSpace l) (lit ":53"))) t = true ->
  parseForwardRules (ToCorefile rule) = [rule] ->
  parseForwardRules (corefile ++ nl ++ ToCorefile rule ++ nl)
  = parseForwardRules corefile ++ [rule].
Proof. apply parse_added. Qed.

End AddRule.

Section AddRuleWorld.
Context `{ClientGo}.
Import strings strings_facts space_facts delete_facts.

(** What [AddForwardRule] does when the API server answers. *)
Lemma AddForwardRule_run (cluster : Cluster) (rule : ForwardRule)
    (w w1 : World) (client : Clientset) (cm : ConfigMap)
    (data : gmap gostring gostring) (svc : Service) :
  GetClient cluster w = (Ok client, w1) ->
  configMap (api w) = Ok cm -> Data cm = Some data ->
  service (api w) = Ok svc -> updateRefused (api w) = None ->
  let corefile := default [] (data !! CorefileName) in
  let cm' := {| Data := Some (<[CorefileName :=
                   corefile ++ nl ++ ToCorefile rule ++ nl]> data) |} in
  AddForwardRule cluster rule w =
    if existsb (fun r => eqb (GetFullName r) (GetFullName rule))
               (parseForwardRules corefile)
    then (Err (lit "forward rule for " ++ GetFullName rule ++ lit " already exists"),
          onApi (fun a => logged ReqGetService (logged ReqGetConfigMap a)) w1)
    else (Ok tt,
          onApi (fun a => logged (ReqUpdateConfigMap cm')
                            (storing cm' (logged ReqGetConfigMap
                               (logged ReqGetService (logged ReqGetConfigMap a))))) w1).
Proof.
  intros Hg Hcm Hdata Hsvc Hup corefile cm'.
  pose proof (GetClient_frame _ _ _ _ Hg) as Hapi.
  unfold AddForwardRule, bind.
  rewrite (GetCoreDNSInfo_run _ _ _ _ _ _ Hg Hcm Hsvc). rewrite Hdata.
  cbn [Corefile ForwardRules]. fold corefile.
  destruct (existsb _ _).
  - unfold fail. cbn. reflexivity.
  - rewrite (UpdateCorefile_run cluster _ client cm data).
    + reflexivity.
    + cbn. now apply (GetClient_cached cluster w).
    + cbn. now rewrite Hapi.
    + assumption.
    + cbn. now rewrite Hapi.
Qed.

(** X3. When the API server answers and no parsed rule has the full name of
    the new rule, [AddForwardRule] returns no error and stores the Corefile
    followed by a newline, the rendered block and a newline; the other keys
    of the ConfigMap are kept. *)
Theorem AddForwardRule_appends (cluster : Cluster) (rule : ForwardRule)
    (w w1 : World) (client : Clientset) (cm : ConfigMap)
    (data : gmap gostring gostring) (svc : Service) :
  GetClient cluster w = (Ok client, w1) ->
  configMap (api w) = Ok cm -> Data cm = Some data ->
  service (api w) = Ok svc -> updateRefused (api w) = None ->
  let corefile := default [] (data !! CorefileName) in
  let cm' := {| Data := Some (<[CorefileName :=
                   corefile ++ nl ++ ToCorefile rule ++ nl]> data) |} in
  (forall r, In r (parseForwardRules corefile) -> GetFullName r <> GetFullName rule) ->
  exists w',
    AddForwardRule cluster rule w = (Ok tt, w') /\
    configMap (api w') = Ok cm' /\
    requests (api w') =
      requests (api w) ++
      [ReqGetConfigMap; ReqGetService; ReqGetConfigMap; ReqUpdateConfigMap cm'].
Proof.
  intros Hg Hcm Hdata Hsvc Hup corefile cm' Hnew.
  rewrite (AddForwardRule_run cluster rule w w1 client cm data svc) by assumption.
  fold corefile. replace (existsb _ _) with false.
  - eexists. split; [reflexivity |]. cbn. rewrite (GetClient_frame _ _ _ _ Hg).
    split; [reflexivity |]. now rewrite <- !app_assoc.
  - symmetry. apply not_true_iff_false. intros Hex.
    apply existsb_exists in Hex as [r [Hin Heq]]. apply eqb_true in Heq.
    now apply (Hnew r Hin).
Qed.


End AddRuleWorld.

(** * More about names and deletion *)
Section NamesAndDeletion.
Import strings strings_facts space_facts delete_facts.

Lemma fqdn_parse (rule : ForwardRule) :
  Contains (Namespace rule) (lit ".") = false ->
  Contains (ServiceName rule) (lit ".") = false ->
  ContainsSpace (Namespace rule) = false ->
  ContainsSpace (ServiceName rule) = false ->
  ParseNameInput (GetFQDN rule) = (ServiceName rule, Namespace rule, true).
Proof.
  intros Hnd Hsd Hnw Hsw.
  pose proof (fullName_no_space rule Hnw Hsw) as Hfw.
  pose proof (fullName_no_suffix rule Hnd Hsd) as Hfs.
  pose proof (fullName_split rule Hnd Hsd) as Hsplit.
  unfold ParseNameInput, GetFQDN.
  assert (Htrim : TrimSpace (GetFullName rule ++ lit ".svc.cluster.local")
                  = GetFullName rule ++ lit ".svc.cluster.local").
  { destruct (GetFullName rule) as [|ch fn] eqn:Hfn; [reflexivity |].
    apply TrimSpace_free. rewrite <- Hfn in *.
    change (lit ".svc.cluster.local") with ("."%char :: lit "svc.cluster.local").
    now apply ContainsSpace_join. }
  rewrite Htrim, HasSuffix_app, TrimSuffix_app.
  destruct (SplitN2 (GetFullName rule) ".") as [|p0 [|p1 [|p2 ps]]];
    injection Hsplit as <- <-; reflexivity.
Qed.

(** X5. The rule of an add request is the rule named: from the full name the
    short rule, from the full name followed by [.svc.cluster.local] the FQDN
    rule, when namespace and service name hold no dot and no white space. *)
Theorem ruleOfRequest_roundtrip (rule : ForwardRule) :
  Contains (Namespace rule) (lit ".") = false ->
  Contains (ServiceName rule) (lit ".") = false ->
  ContainsSpace (Namespace rule) = false ->
  ContainsSpace (ServiceName rule) = false ->
  ruleOfRequest (if IsFullFQDN rule then GetFQDN rule else GetFullName rule)
                (TargetIP rule) = rule.
Proof.
  intros Hnd Hsd Hnw Hsw. unfold ruleOfRequest.
  destruct (IsFullFQDN rule) eqn:Hfq.
  - rewrite fqdn_parse by assumption. destruct rule; cbn in *; now subst.
  - rewrite fullName_parse by assumption. destruct rule; cbn in *; now subst.
Qed.

Lemma ruleBlockOf_names (rule : ForwardRule) :
  Contains (Namespace rule) (lit ".") = false ->
  Contains (ServiceName rule) (lit ".") = false ->
  ContainsSpace (Namespace rule) = false ->
  ContainsSpace (ServiceName rule) = false ->
  ruleBlockOf (GetFullName rule) (IsFullFQDN rule) = GetDomainBlock rule /\
  ruleBlockOf (GetFQDN rule) (IsFullFQDN rule) = GetDomainBlock rule.
Proof.
  intros Hnd Hsd Hnw Hsw.
  rewrite !ruleBlockOf_eq, fqdn_parse, fullName_parse by assumption.
  fold (GetFullName rule). unfold GetDomainBlock, GetFQDN.
  destruct (IsFullFQDN rule); rewrite <- ?app_assoc; split; reflexivity.
Qed.

(** X6. [DeleteForwardRule] looks for the domain block of the rule,
    [GetDomainBlock], whether it is given the full name or the full name
    followed by [.svc.cluster.local]. *)
Theorem ruleBlockOf_GetDomainBlock (rule : ForwardRule) :
  Contains (Namespace rule) (lit ".") = false ->
  Contains (ServiceName rule) (lit ".") = false ->
  ContainsSpace (Namespace rule) = false ->
  ContainsSpace (ServiceName rule) = false ->
  ruleBlockOf (GetFullName rule) (IsFullFQDN rule) = GetDomainBlock rule /\
  ruleBlockOf (GetFQDN rule) (IsFullFQDN rule) = GetDomainBlock rule.
Proof. apply ruleBlockOf_names. Qed.




(** The lines that come out of the loop are lines that went in, in order. *)
Lemma delete_sublist (p : gostring) (lines : list gostring) (st : deleteState) :
  exists kept,
    newLines (fold_left (deleteStep p) lines st) = newLines st ++ kept /\
    sublist kept lines.
Proof.
  revert st. induction lines as [|l lines IH]; intros st.
  - exists []. split; [now rewrite app_nil_r | constructor].
  - cbn [fold_left]. destruct (IH (deleteStep p st l)) as [kept [Heq Hsub]].
    rewrite Heq. unfold deleteStep. fold (isHeader p l).
    destruct (isHeader p l); cbn [skipBlock newLines braceCount].
    + exists kept. split; [now destruct (_ && _) | now constructor].
    + destruct (skipBlock st).
      * exists kept. split; [now destruct (_ && _) | now constructor].
      * exists (l :: kept). cbn [newLines]. split; [now rewrite <- app_assoc |].
        now constructor.
Qed.

Lemma deleteLines_kept (p : gostring) (lines : list gostring) :
  sublist (deleteLines p lines) lines /\
  forallb (fun l => negb (isHeader p l)) (deleteLines p lines) = true.
Proof.
  split.
  - unfold deleteLines.
    destruct (delete_sublist p lines
                {| newLines := []; skipBlock := false; braceCount := 0 |})
      as [kept [-> Hsub]]. exact Hsub.
  - unfold deleteLines. now apply delete_no_header.
Qed.

(** X8. Whatever the text, the lines the deletion keeps are lines of the
    text in their order, none added and none changed, and no kept line is a
    header for the prefix. *)
Theorem deleteLines_keeps (p : gostring) (lines : list gostring) :
  sublist (deleteLines p lines) lines /\
  forallb (fun l => negb (isHeader p l)) (deleteLines p lines) = true.
Proof. apply deleteLines_kept. Qed.

(** X9. Deleting twice is deleting once. *)
Theorem deleteFromCorefile_idempotent (corefile name : gostring) (isFullFQDN : bool) :
  deleteFromCorefile (deleteFromCorefile corefile name isFullFQDN) name isFullFQDN
  = deleteFromCorefile corefile name isFullFQDN.
Proof.
  unfold deleteFromCorefile at 2.
  set (p := ruleBlockOf name isFullFQDN).
  destruct (deleteLines_kept p (Split corefile "010")) as [Hsub Hnone].
  assert (Hlines : forallb isLine (deleteLines p (Split corefile "010")) = true).
  { apply forallb_forall. intros l Hin. unfold isLine. apply negb_true_iff.
    apply (proj1 (List.Forall_forall _ _) (Split_lines_no_sep corefile "010")).
    apply list_elem_of_In. apply list_elem_of_In in Hin.
    exact (elem_of_sublist _ _ _ Hin Hsub). }
  rewrite deleteFromCorefile_lines by assumption. fold p.
  now rewrite deleteLines_none.
Qed.

End NamesAndDeletion.

(** * More about the manager and the handler *)
Section WorldExtras.
Context `{ClientGo}.
Import strings strings_facts.

Lemma createClient_error (cluster : Cluster) (w w' : World) (e : error) :
  createClient cluster w = (Err e, w') ->
  w' = w /\
  exists cause,
    e = lit "failed to decode kubeconfig: " ++ cause \/
    e = lit "failed to build kubeconfig: " ++ cause \/
    e = lit "failed to create kubernetes client: " ++ cause.
Proof.
  unfold createClient, bind, lift, wrap, allocate.
  destruct (base64_DecodeString (Kubeconfig cluster)) as [data | e0 | msg].
  - destruct (RESTConfigFromKubeConfig data) as [config | e1 | msg].
    + destruct (NewForConfig config) as [e2 |]; [| discriminate].
      intros [= <- <-]. split; [reflexivity |]. exists e2. right. right.
      cbn. now rewrite app_nil_r.
    + intros [= <- <-]. split; [reflexivity |]. exists e1. right. left.
      cbn. now rewrite app_nil_r.
    + discriminate.
  - intros [= <- <-]. split; [reflexivity |]. exists e0. left.
    cbn. now rewrite app_nil_r.
  - discriminate.
Qed.

(** X10. A [GetClient] that fails caches nothing and changes nothing: the
    identifier had no client, the world is as before, and the error is that
    of one of the three steps of the construction.  [TestConnection] then
    returns that error without a request to the API server. *)
Theorem GetClient_failure (cluster : Cluster) (w w' : World) (e : error) :
  GetClient cluster w = (Err e, w') ->
  w' = w /\
  clients (manager w) !! ID cluster = None /\
  (exists cause,
     e = lit "failed to decode kubeconfig: " ++ cause \/
     e = lit "failed to build kubeconfig: " ++ cause \/
     e = lit "failed to create kubernetes client: " ++ cause) /\
  TestConnection cluster w = (Err e, w).
Proof.
  intros Hg. assert (Hg0 := Hg). unfold GetClient in Hg.
  destruct (clients (manager w) !! ID cluster) as [c|] eqn:Hl; [discriminate |].
  unfold bind in Hg. destruct (createClient cluster w) as [[c | e0 | msg] w0] eqn:Hc;
    try discriminate.
  injection Hg as <- <-. destruct (createClient_error _ _ _ _ Hc) as [-> Hcause].
  split; [reflexivity |]. split; [reflexivity |]. split; [exact Hcause |].
  unfold TestConnection, bind. now rewrite Hg0.
Qed.

(** *** The invariant of the cache *)
Lemma keepsCache_bind {A B} (m : M A) (k : A -> M B) :
  keepsCache m -> (forall a, keepsCache (k a)) -> keepsCache (bind m k).
Proof.
  intros Hm Hk w r w' Hok. unfold bind.
  destruct (m w) as [[a | e | msg] w0] eqn:Hmw; pose proof (Hm _ _ _ Hok Hmw) as Hok0.
  - now apply Hk.
  - now intros [= <- <-].
  - now intros [= <- <-].
Qed.

Lemma keepsCache_onApi {A} (r : World -> result A) (f : World -> ApiServer -> ApiServer) :
  keepsCache (fun w => (r w, onApi (f w) w)).
Proof. intros w r0 w' Hok [= <- <-]. exact Hok. Qed.

Lemma keepsCache_wrap {A} (format : string) (m : M A) :
  keepsCache m -> keepsCache (wrap format m).
Proof.
  intros Hm w r w' Hok. unfold wrap.
  destruct (m w) as [[a | e | msg] w0] eqn:Hmw; pose proof (Hm _ _ _ Hok Hmw);
    now intros [= <- <-].
Qed.

Lemma keepsCache_request {A} (rq : Request) (answer : ApiServer -> result A) :
  keepsCache (request rq answer).
Proof. intros w r w' Hok [= <- <-]. exact Hok. Qed.

Lemma keepsCache_update (client : Clientset) (cm : ConfigMap) :
  keepsCache (ConfigMaps_Update client cm).
Proof.
  intros w r w' Hok. unfold ConfigMaps_Update.
  destruct (updateRefused (api w)); intros [= <- <-]; exact Hok.
Qed.

Lemma keepsCache_GetClient (cluster : Cluster) : keepsCache (GetClient cluster).
Proof. intros w r w' Hok Hg. exact (GetClient_cacheOk _ _ _ _ Hok Hg). Qed.

Lemma keepsCache_RemoveClient (clusterID : gostring) : keepsCache (RemoveClient clusterID).
Proof.
  intros w r w' Hok [= <- <-]. intros id c. cbn.
  destruct (decide (clusterID = id)) as [<- | Hne].
  - now rewrite lookup_delete_eq.
  - rewrite lookup_delete_ne by assumption. apply Hok.
Qed.

Lemma keepsCache_pure {A} (r : result A) : keepsCache (fun w => (r, w)).
Proof. now intros w r0 w' Hok [= <- <-]. Qed.

Lemma keepsCache_TestConnection (cluster : Cluster) : keepsCache (TestConnection cluster).
Proof.
  unfold TestConnection. apply keepsCache_bind; [apply keepsCache_GetClient |].
  intros client w r w' Hok. unfold Discovery_ServerVersion, request.
  destruct (serverVersion (api w)) as [e|].
  - unfold bind, RemoveClient, fail. intros [= <- <-]. intros id c. cbn.
    destruct (decide (ID cluster = id)) as [<- | Hne].
    + now rewrite lookup_delete_eq.
    + rewrite lookup_delete_ne by assumption. apply Hok.
  - intros [= <- <-]. exact Hok.
Qed.

Lemma keepsCache_GetCoreDNSInfo (cluster : Cluster) : keepsCache (GetCoreDNSInfo cluster).
Proof.
  unfold GetCoreDNSInfo. apply keepsCache_bind; [apply keepsCache_GetClient |].
  intros client. apply keepsCache_bind; [apply keepsCache_wrap, keepsCache_request |].
  intros cm. apply keepsCache_bind; [apply keepsCache_wrap, keepsCache_request |].
  intros svc. apply (keepsCache_pure (Ok _)).
Qed.

Lemma keepsCache_UpdateCorefile (cluster : Cluster) (corefile : gostring) :
  keepsCache (UpdateCorefile cluster corefile).
Proof.
  unfold UpdateCorefile. apply keepsCache_bind; [apply keepsCache_GetClient |].
  intros client. apply keepsCache_bind; [apply keepsCache_wrap, keepsCache_request |].
  intros cm. destruct (Data cm).
  - apply keepsCache_wrap, keepsCache_update.
  - apply (keepsCache_pure (Panic _)).
Qed.

(** X11. Every cached client is one that was constructed: this holds of a
    new manager and is kept by every operation of the manager and of the
    CoreDNS handler, whatever it returns. *)
Theorem cache_invariant (cluster : Cluster) (rule : ForwardRule)
    (name corefile : gostring) (isFullFQDN : bool) (a : ApiServer) :
  cacheOk {| manager := NewManager; constructed := 0; api := a |} /\
  keepsCache (GetClient cluster) /\
  keepsCache (RemoveClient (ID cluster)) /\
  keepsCache (TestConnection cluster) /\
  keepsCache (GetCoreDNSInfo cluster) /\
  keepsCache (UpdateCorefile cluster corefile) /\
  keepsCache (AddForwardRule cluster rule) /\
  keepsCache (DeleteForwardRule cluster name isFullFQDN).
Proof.
  split; [intros id c; cbn; now rewrite lookup_empty |].
  split; [apply keepsCache_GetClient |].
  split; [apply keepsCache_RemoveClient |].
  split; [apply keepsCache_TestConnection |].
  split; [apply keepsCache_GetCoreDNSInfo |].
  split; [apply keepsCache_UpdateCorefile |].
  split.
  - unfold AddForwardRule. apply keepsCache_bind; [apply keepsCache_GetCoreDNSInfo |].
    intros info. destruct (existsb _ _).
    + apply (keepsCache_pure (Err _)).
    + apply keepsCache_UpdateCorefile.
  - unfold DeleteForwardRule. apply keepsCache_bind; [apply keepsCache_GetCoreDNSInfo |].
    intros info. apply keepsCache_UpdateCorefile.
Qed.

(** *** Reading and writing the Corefile *)
Lemma UpdateCorefile_ok (cluster : Cluster) (corefile : gostring) (w w' : World) :
  UpdateCorefile cluster corefile w = (Ok tt, w') ->
  exists w1 client cm data,
    GetClient cluster w = (Ok client, w1) /\
    configMap (api w) = Ok cm /\ Data cm = Some data /\
    updateRefused (api w) = None /\
    let cm' := {| Data := Some (<[CorefileName := corefile]> data) |} in
    w' = onApi (fun a => logged (ReqUpdateConfigMap cm')
                           (storing cm' (logged ReqGetConfigMap a))) w1.
Proof.
  unfold UpdateCorefile, bind.
  destruct (GetClient cluster w) as [[client | e | msg] w1] eqn:Hg; try discriminate.
  pose proof (GetClient_frame _ _ _ _ Hg) as Hapi.
  unfold wrap, ConfigMaps_Get, request. rewrite Hapi.
  destruct (configMap (api w)) as [cm | e | msg] eqn:Hcm; try discriminate.
  destruct (Data cm) as [data|] eqn:Hdata; [| discriminate].
  unfold ConfigMaps_Update. cbn. rewrite Hapi.
  destruct (updateRefused (api w)) eqn:Hup; [discriminate |].
  intros [= <-]. exists w1, client, cm, data. repeat split; assumption.
Qed.

(** X12. What [UpdateCorefile] wrote is what the next [GetCoreDNSInfo]
    reads: after an update that returned no error, the read returns the
    written text as Corefile, with the rules parsed from it, and sends no
    update. *)
Theorem UpdateCorefile_read_back (cluster : Cluster) (corefile : gostring)
    (w w' : World) (svc : Service) :
  UpdateCorefile cluster corefile w = (Ok tt, w') ->
  service (api w) = Ok svc ->
  exists info w'',
    GetCoreDNSInfo cluster w' = (Ok info, w'') /\
    Corefile info = corefile /\
    ForwardRules info = parseForwardRules corefile /\
    ServiceIP info = ClusterIP svc /\
    configMap (api w'') = configMap (api w').
Proof.
  intros Hup Hsvc.
  destruct (UpdateCorefile_ok _ _ _ _ Hup)
    as [w1 [client [cm [data [Hg [Hcm [Hdata [Hnot Hw']]]]]]]].
  cbn zeta in Hw'. pose proof (GetClient_frame _ _ _ _ Hg) as Hapi.
  set (cm' := {| Data := Some (<[CorefileName := corefile]> data) |}) in *.
  assert (Hg' : GetClient cluster w' = (Ok client, w')).
  { apply GetClient_hit. rewrite Hw'. cbn. now apply (GetClient_cached cluster w). }
  eexists. eexists. split.
  - apply (GetCoreDNSInfo_run cluster w' w' client cm' svc Hg').
    + rewrite Hw'. reflexivity.
    + rewrite Hw'. cbn. now rewrite Hapi.
  - cbn. rewrite lookup_insert_eq. repeat split.
Qed.

(** X13. Writing into a ConfigMap that has no data panics: [UpdateCorefile]
    reads the ConfigMap, panics on the assignment to the nil map and sends
    no update, and so does [AddForwardRule], which finds no rule in the
    empty Corefile. *)
Theorem UpdateCorefile_nil_map (cluster : Cluster) (rule : ForwardRule)
    (corefile : gostring) (w w1 : World) (client : Clientset) (cm : ConfigMap)
    (svc : Service) :
  GetClient cluster w = (Ok client, w1) ->
  configMap (api w) = Ok cm -> Data cm = None -> service (api w) = Ok svc ->
  UpdateCorefile cluster corefile w =
    (Panic (lit "assignment to entry in nil map"), onApi (logged ReqGetConfigMap) w1) /\
  AddForwardRule cluster rule w =
    (Panic (lit "assignment to entry in nil map"),
     onApi (fun a => logged ReqGetConfigMap
                       (logged ReqGetService (logged ReqGetConfigMap a))) w1).
Proof.
  intros Hg Hcm Hdata Hsvc. pose proof (GetClient_frame _ _ _ _ Hg) as Hapi.
  split.
  - unfold UpdateCorefile, bind. rewrite Hg.
    unfold wrap, ConfigMaps_Get, request. rewrite Hapi, Hcm, Hdata. reflexivity.
  - unfold AddForwardRule, bind.
    rewrite (GetCoreDNSInfo_run _ _ _ _ _ _ Hg Hcm Hsvc). rewrite Hdata.
    cbn [ForwardRules Corefile].
    change (parseForwardRules []) with (@nil ForwardRule). cbn [existsb].
    unfold UpdateCorefile, bind.
    rewrite (GetClient_hit cluster _ client)
      by (cbn; now apply (GetClient_cached cluster w)).
    unfold wrap, ConfigMaps_Get, request. cbn. rewrite Hapi, Hcm, Hdata. reflexivity.
Qed.

(** X14. When the API server refuses the update, [UpdateCorefile] returns
    its error wrapped and the stored ConfigMap is the one that was there. *)
Theorem UpdateCorefile_refused (cluster : Cluster) (corefile : gostring)
    (w w1 : World) (client : Clientset) (cm : ConfigMap)
    (data : gmap gostring gostring) (e : error) :
  GetClient cluster w = (Ok client, w1) ->
  configMap (api w) = Ok cm -> Data cm = Some data ->
  updateRefused (api w) = Some e ->
  exists w',
    UpdateCorefile cluster corefile w =
      (Err (lit "failed to update coredns configmap: " ++ e), w') /\
    configMap (api w') = Ok cm.
Proof.
  intros Hg Hcm Hdata Hup. pose proof (GetClient_frame _ _ _ _ Hg) as Hapi.
  eexists. split.
  - unfold UpdateCorefile, bind. rewrite Hg.
    unfold wrap, ConfigMaps_Get, request. rewrite Hapi, Hcm, Hdata.
    unfold ConfigMaps_Update. cbn. rewrite Hapi, Hup. cbn. rewrite app_nil_r. reflexivity.
  - cbn. now rewrite Hapi.
Qed.

(** X15. [GetCoreDNSInfo] only reads: whatever it returns, the objects the
    API server holds are unchanged and the requests it sent are reads. *)
Theorem GetCoreDNSInfo_reads_only (cluster : Cluster) (w w' : World)
    (r : result CoreDNSInfo) :
  GetCoreDNSInfo cluster w = (r, w') ->
  configMap (api w') = configMap (api w) /\
  service (api w') = service (api w) /\
  exists sent, requests (api w') = requests (api w) ++ sent /\
               forallb isRead sent = true.
Proof.
  intros Hrun.
  assert (Hw : exists sent, forallb isRead sent = true /\
                 api w' = {| serverVersion := serverVersion (api w);
                             configMap := configMap (api w);
                             service := service (api w);
                             updateRefused := updateRefused (api w);
                             requests := requests (api w) ++ sent |}).
  { revert Hrun. unfold GetCoreDNSInfo, bind.
    destruct (GetClient cluster w) as [[client | e | msg] w1] eqn:Hg;
      pose proof (GetClient_frame _ _ _ _ Hg) as Hapi.
    - unfold wrap, ConfigMaps_Get, Services_Get, request. cbn. rewrite ?Hapi.
      destruct (configMap (api w)) as [cm | e | msg] eqn:Hcm.
      + cbn. rewrite ?Hapi.
        destruct (service (api w)) as [svc | e | msg] eqn:Hsvc; intros [= <- <-];
          exists [ReqGetConfigMap; ReqGetService]; (split; [reflexivity |]);
          unfold logged; cbn; rewrite ?Hapi, ?Hcm, ?Hsvc, <- ?app_assoc; reflexivity.
      + intros [= <- <-]. exists [ReqGetConfigMap]. split; [reflexivity |].
        unfold logged; cbn. now rewrite ?Hapi, ?Hcm.
      + intros [= <- <-]. exists [ReqGetConfigMap]. split; [reflexivity |].
        unfold logged; cbn. now rewrite ?Hapi, ?Hcm.
    - intros [= <- <-]. exists []. split; [reflexivity |].
      rewrite Hapi, app_nil_r. now destruct (api w).
    - intros [= <- <-]. exists []. split; [reflexivity |].
      rewrite Hapi, app_nil_r. now destruct (api w). }
  destruct Hw as [sent [Hread ->]]. cbn. split; [reflexivity |].
  split; [reflexivity |]. now exists sent.
Qed.

End WorldExtras.

(** * What the parser emits *)
Section ParsedRules.
Import strings strings_facts space_facts.

(** While a field is read, no part of it followed by the rest of the string
    starts with a white-space rune. *)
Lemma fieldsFrom_good (s : gostring) :
  forall skip cur,
    (skip = 0 \/ cur = []) ->
    (forall v u, rev cur = v ++ u -> u <> [] -> spaceWidth (u ++ s) = 0) ->
    Forall (fun f => f <> [] /\ ContainsSpace f = false) (fieldsFrom skip cur s).
Proof.
  assert (Hflush : forall cur rest,
            (forall v u, rev cur = v ++ u -> u <> [] -> spaceWidth (u ++ rest) = 0) ->
            Forall (fun f => f <> [] /\ ContainsSpace f = false) (flushField cur)).
  { intros cur rest Hinv. destruct cur as [|c cur]; [constructor |].
    unfold flushField. constructor; [| constructor]. split.
    - cbn. intros Heq. apply app_eq_nil in Heq as [_ Heq]. discriminate.
    - apply ContainsSpace_false. intros enc Hin. apply not_true_iff_false. intros Hc.
      apply Contains_spec in Hc as [a [b Hab]].
      assert (Hne : enc ++ b <> []).
      { intros Heq. apply app_eq_nil in Heq as [-> _].
        now apply (proj1 (List.Forall_forall _ _) unicodeSpaces_not_nil) in Hin. }
      pose proof (Hinv a (enc ++ b) Hab Hne) as Hw.
      pose proof (proj1 (spaceWidth_zero _) Hw enc Hin) as Hp.
      rewrite <- app_assoc, HasPrefix_app in Hp. discriminate. }
  induction s as [|c s IH]; intros skip cur Hskip Hinv.
  - cbn [fieldsFrom]. now apply (Hflush cur []).
  - cbn [fieldsFrom]. destruct skip as [|k].
    + destruct (spaceWidth (c :: s)) as [|k] eqn:Hw.
      * apply IH; [now left |]. intros v u Hvu Hu.
        cbn [rev] in Hvu.
        destruct (exists_last Hu) as [u' [c' ->]].
        rewrite app_assoc in Hvu. apply app_inj_tail in Hvu as [Hvu ->].
        rewrite <- app_assoc. cbn [app].
        destruct u' as [|d u']; [exact Hw |].
        apply (Hinv v); [exact Hvu | discriminate].
      * apply Forall_app. split; [now apply (Hflush cur (c :: s)) |].
        apply IH; [now right |]. intros v u Hvu Hu. cbn in Hvu.
        destruct v; [cbn in Hvu; congruence | discriminate].
    + destruct Hskip as [Hk | ->]; [discriminate |].
      apply IH; [now right |]. intros v u Hvu Hu. cbn in Hvu.
      destruct v; [cbn in Hvu; congruence | discriminate].
Qed.

(** Every field is a non-empty string without white space. *)
Lemma Fields_good (s : gostring) :
  Forall (fun f => f <> [] /\ ContainsSpace f = false) (Fields s).
Proof.
  unfold Fields. apply fieldsFrom_good; [now left |].
  intros v u Hvu Hu. cbn in Hvu. destruct v; [cbn in Hvu; congruence | discriminate].
Qed.

Lemma SplitN2_first_no_sep (s : gostring) (sep : ascii) :
  match SplitN2 s sep with
  | [part0; part1] => Contains part0 [sep] = false
  | _ => True
  end.
Proof.
  destruct (first_sep s sep) as [Hno | [a [b [-> Ha]]]].
  - now rewrite SplitN2_no_sep.
  - now rewrite SplitN2_first.
Qed.

Lemma ParseNameInput_service (input : gostring) :
  Contains (fst (fst (ParseNameInput input))) (lit ".") = false.
Proof.
  unfold ParseNameInput.
  match goal with |- context [SplitN2 ?s "."] => pose proof (SplitN2_first_no_sep s ".") as Hs;
    destruct (SplitN2 s ".") as [|p0 [|p1 [|p2 ps]]] end; cbn; trivial.
Qed.

Lemma domainNames_service (dp : gostring) :
  Contains (fst (fst (domainNames dp))) (lit ".") = false.
Proof.
  unfold domainNames. destruct (HasSuffix dp (lit ".svc.cluster.local")).
  - cbn zeta.
    pose proof (ParseNameInput_service (TrimSuffix dp (lit ".svc.cluster.local"))) as Hp.
    destruct (ParseNameInput _) as [[s n] b]. exact Hp.
  - pose proof (SplitN2_first_no_sep dp ".") as Hs.
    destruct (SplitN2 dp ".") as [|p0 [|p1 [|p2 ps]]]; cbn; trivial.
Qed.

Lemma lookForward_emits (lines : list gostring) (j n : nat)
    (serviceName namespace : gostring) (isFullFQDN : bool) (rules : list ForwardRule) :
  lookForward lines j n serviceName namespace isFullFQDN rules = rules \/
  exists l,
    3 <= length (Fields (TrimSpace l)) /\
    lookForward lines j n serviceName namespace isFullFQDN rules
    = rules ++ [ {| Namespace := namespace; ServiceName := serviceName;
                    TargetIP := nth 2 (Fields (TrimSpace l)) [];
                    IsFullFQDN := isFullFQDN |} ].
Proof.
  revert j. induction n as [|n IH]; intros j; [now left |]. cbn [lookForward].
  destruct (nth_error lines j) as [l|]; [| now left].
  destruct (HasPrefix _ _).
  - destruct (3 <=? length (Fields (TrimSpace l))) eqn:Hlen; [| now left].
    right. exists l. split; [now apply Nat.leb_le | reflexivity].
  - destruct (Contains _ _); [now left | apply IH].
Qed.

Lemma rulesOfLine_good (lines : list gostring) (i : nat) (r : ForwardRule) :
  In r (rulesOfLine lines i) ->
  Namespace r <> [] /\
  Contains (ServiceName r) (lit ".") = false /\
  TargetIP r <> [] /\
  ContainsSpace (TargetIP r) = false.
Proof.
  unfold rulesOfLine. destruct (nth_error lines i) as [line|]; [| intros []].
  unfold parseLine.
  destruct (negb (Contains _ _)); [intros [] |].
  destruct (_ && _); [intros [] |].
  destruct (_ || _); [intros [] |].
  pose proof (domainNames_service (domainPartOf (TrimSpace line))) as Hsvc.
  destruct (domainNames _) as [[serviceName namespace] fq]. cbn in Hsvc.
  destruct (eqb namespace (lit "")) eqn:Hns; [intros [] |].
  apply eqb_false in Hns.
  destruct (lookForward_emits lines (i + 1) 9 serviceName namespace fq [])
    as [-> | [l [Hlen ->]]]; [intros [] |].
  cbn [app]. intros [<- | []]. cbn.
  pose proof (Fields_good (TrimSpace l)) as Hgood.
  rewrite List.Forall_forall in Hgood.
  destruct (Hgood (nth 2 (Fields (TrimSpace l)) [])) as [Hne Hsp].
  { apply nth_In. lia. }
  repeat split; assumption.
Qed.

(** X16. Every rule the parser emits has a namespace that is not empty, a
    service name without a dot, and a target that is not empty and holds no
    white space. *)
Theorem parsed_rules_wellformed (corefile : gostring) (r : ForwardRule) :
  In r (parseForwardRules corefile) ->
  Namespace r <> [] /\
  Contains (ServiceName r) (lit ".") = false /\
  TargetIP r <> [] /\
  ContainsSpace (TargetIP r) = false.
Proof.
  rewrite parseForwardRules_by_line. intros Hin.
  apply in_flat_map in Hin as [i [_ Hi]]. exact (rulesOfLine_good _ i r Hi).
Qed.

End ParsedRules.

(** * The store of the clusters *)
Section StoreFacts.
Context `{store.Os}.
Import store.

Lemma firstWithID_cons (id : gostring) (c : Cluster) (l : list Cluster) :
  firstWithID id (c :: l)
  = if decide (ID c = id) then Some (0, c)
    else prod_map S (fun x => x) <$> firstWithID id l.
Proof. reflexivity. Qed.

Lemma GetCluster_cons (id : gostring) (c : Cluster) (l : list Cluster) (s : State) :
  GetCluster id (withClusters (c :: l) s)
  = if decide (ID c = id) then Some c else GetCluster id (withClusters l s).
Proof.
  unfold GetCluster. cbn [clusters withClusters]. rewrite firstWithID_cons.
  destruct (decide (ID c = id)); [reflexivity |].
  destruct (firstWithID id l) as [[i x]|]; reflexivity.
Qed.

Lemma GetCluster_withClusters (id : gostring) (s : State) :
  GetCluster id s = GetCluster id (withClusters (clusters s) s).
Proof. reflexivity. Qed.

Lemma GetCluster_clusters (id : gostring) (s s' : State) :
  clusters s' = clusters s -> GetCluster id s' = GetCluster id s.
Proof. unfold GetCluster. now intros ->. Qed.

Lemma save_clusters (s : State) : clusters (snd (save s)) = clusters s.
Proof.
  unfold save, os_WriteFile. destruct (json_MarshalIndent _) as [data [e|]]; [reflexivity |].
  destruct (writeRefused s); reflexivity.
Qed.

Lemma save_synced (s : State) : fst (save s) = None -> synced (snd (save s)).
Proof.
  unfold synced, save, os_WriteFile, clustersFile.
  destruct (json_MarshalIndent (clusters s)) as [data [e|]] eqn:Hm; [discriminate |].
  destruct (writeRefused s); [discriminate |]. intros _. cbn.
  rewrite Hm. cbn. apply lookup_insert_eq.
Qed.

(** The cluster removed is the first with the identifier; the lookup of
    another identifier does not see the removal. *)
Lemma delete_other (id id' : gostring) (s : State) (l : list Cluster) :
  id' <> id ->
  forall i c,
    firstWithID id l = Some (i, c) ->
    GetCluster id' (withClusters (take i l ++ drop (i + 1) l) s)
    = GetCluster id' (withClusters l s).
Proof.
  intros Hne. induction l as [|x l IH]; intros i c Hf; [discriminate |].
  rewrite firstWithID_cons in Hf. destruct (decide (ID x = id)) as [Hx | Hx].
  - injection Hf as <- <-. cbn [take drop Nat.add app]. rewrite drop_0.
    rewrite GetCluster_cons. destruct (decide (ID x = id')); [congruence | reflexivity].
  - destruct (firstWithID id l) as [[j y]|] eqn:Hl; [| discriminate].
    cbn in Hf. injection Hf as <- <-. cbn [take drop Nat.add app].
    rewrite !GetCluster_cons. destruct (decide (ID x = id')); [reflexivity |].
    now apply (IH j y).
Qed.

Lemma firstWithID_absent (id : gostring) (l : list Cluster) :
  ~ In id (List.map ID l) -> firstWithID id l = None.
Proof.
  induction l as [|x l IH]; intros Hn; [reflexivity |].
  rewrite firstWithID_cons. destruct (decide (ID x = id)) as [Hx | Hx].
  - exfalso. apply Hn. now left.
  - rewrite IH; [reflexivity |]. intros Hin. apply Hn. now right.
Qed.

Lemma delete_nodup (id : gostring) (l : list Cluster) :
  List.NoDup (List.map ID l) ->
  forall i c,
    firstWithID id l = Some (i, c) ->
    firstWithID id (take i l ++ drop (i + 1) l) = None.
Proof.
  induction l as [|x l IH]; intros Hnd i c Hf; [discriminate |].
  cbn [List.map] in Hnd. apply List.NoDup_cons_iff in Hnd as [Hx Hnd].
  rewrite firstWithID_cons in Hf. destruct (decide (ID x = id)) as [He | He].
  - injection Hf as <- <-. cbn [take drop Nat.add app]. rewrite drop_0.
    apply firstWithID_absent. now rewrite <- He.
  - destruct (firstWithID id l) as [[j y]|] eqn:Hl; [| discriminate].
    cbn in Hf. injection Hf as <- <-. cbn [take drop Nat.add app].
    rewrite firstWithID_cons. destruct (decide (ID x = id)); [contradiction |].
    now rewrite (IH Hnd j y).
Qed.

Lemma firstWithID_snoc (id : gostring) (l : list Cluster) (c : Cluster) (s : State) :
  GetCluster id (withClusters (l ++ [c]) s)
  = match GetCluster id (withClusters l s) with
    | Some old => Some old
    | None => if decide (ID c = id) then Some c else None
    end.
Proof.
  induction l as [|x l IH].
  - cbn [app]. rewrite GetCluster_cons. reflexivity.
  - cbn [app]. rewrite !GetCluster_cons. destruct (decide (ID x = id)); [reflexivity |].
    exact IH.
Qed.

Lemma update_first (cluster : Cluster) (s : State) (l : list Cluster) :
  forall i old,
    firstWithID (ID cluster) l = Some (i, old) ->
    GetCluster (ID cluster) (withClusters (<[i := cluster]> l) s) = Some cluster /\
    List.map ID (<[i := cluster]> l) = List.map ID l /\
    forall id', id' <> ID cluster ->
      GetCluster id' (withClusters (<[i := cluster]> l) s)
      = GetCluster id' (withClusters l s).
Proof.
  induction l as [|x l IH]; intros i old Hf; [discriminate |].
  rewrite firstWithID_cons in Hf. destruct (decide (ID x = ID cluster)) as [He | He].
  - injection Hf as <- <-. cbn [insert list_insert]. repeat split.
    + rewrite GetCluster_cons. now destruct (decide (ID cluster = ID cluster)).
    + cbn [List.map]. now rewrite He.
    + intros id' Hne. rewrite !GetCluster_cons.
      destruct (decide (ID cluster = id')); [congruence |].
      destruct (decide (ID x = id')); [congruence | reflexivity].
  - destruct (firstWithID (ID cluster) l) as [[j y]|] eqn:Hl; [| discriminate].
    cbn in Hf. injection Hf as <- <-.
    destruct (IH j y eq_refl) as [Hg [Hm Ho]].
    change (<[S j := cluster]> (x :: l)) with (x :: <[j := cluster]> l). repeat split.
    + rewrite GetCluster_cons. destruct (decide (ID x = ID cluster)); [contradiction |].
      exact Hg.
    + cbn [List.map]. now rewrite Hm.
    + intros id' Hne. rewrite !GetCluster_cons.
      destruct (decide (ID x = id')); [reflexivity |]. now apply Ho.
Qed.

(** X17. [DeleteCluster] removes the first cluster with the identifier and
    no other: the lookup of every other identifier is as before, and when
    the identifiers of the store are distinct the identifier is no longer
    found.  This holds whether or not the file could be written. *)
Theorem DeleteCluster_GetCluster (id : gostring) (s : State) :
  List.NoDup (List.map ID (clusters s)) ->
  GetCluster id (snd (DeleteCluster id s)) = None /\
  forall id', id' <> id ->
    GetCluster id' (snd (DeleteCluster id s)) = GetCluster id' s.
Proof.
  intros Hnd. unfold DeleteCluster.
  destruct (firstWithID id (clusters s)) as [[i c]|] eqn:Hf.
  - split.
    + rewrite (GetCluster_clusters id _ _ (save_clusters _)).
      unfold GetCluster. cbn [clusters withClusters].
      now rewrite (delete_nodup id _ Hnd i c Hf).
    + intros id' Hne. rewrite (GetCluster_clusters id' _ _ (save_clusters _)).
      now rewrite (delete_other id id' s _ Hne i c Hf).
  - cbn [snd]. split; [| reflexivity]. unfold GetCluster. now rewrite Hf.
Qed.

(** X18. [AddCluster] does not look at the identifiers in the store: the
    cluster is appended, and the lookup of its identifier gives the cluster
    that had it before, if there was one, and the new cluster otherwise;
    other identifiers are found as before.  The memory is changed also when
    the file could not be written. *)
Theorem AddCluster_GetCluster (cluster : Cluster) (s : State) :
  ID cluster <> [] ->
  GetClusters (snd (AddCluster cluster s)) = GetClusters s ++ [cluster] /\
  GetCluster (ID cluster) (snd (AddCluster cluster s))
  = Some (default cluster (GetCluster (ID cluster) s)) /\
  forall id', id' <> ID cluster ->
    GetCluster id' (snd (AddCluster cluster s)) = GetCluster id' s.
Proof.
  intros Hid. unfold AddCluster, GetClusters.
  destruct (strings.eqb (ID cluster) (lit "")) eqn:He.
  { apply strings_facts.eqb_true in He. contradiction. }
  split; [now rewrite save_clusters |]. split.
  - rewrite (GetCluster_clusters _ _ _ (save_clusters _)), firstWithID_snoc.
    rewrite <- GetCluster_withClusters.
    destruct (GetCluster (ID cluster) s); [reflexivity |].
    now destruct (decide (ID cluster = ID cluster)).
  - intros id' Hne. rewrite (GetCluster_clusters _ _ _ (save_clusters _)), firstWithID_snoc.
    rewrite <- GetCluster_withClusters.
    destruct (GetCluster id' s); [reflexivity |].
    destruct (decide (ID cluster = id')); [congruence | reflexivity].
Qed.

(** X19. [UpdateCluster] replaces the first cluster with the identifier of
    its argument: the lookup of that identifier gives the argument, the
    identifiers of the store and their order are as before, and other
    identifiers are found as before. *)
Theorem UpdateCluster_GetCluster (cluster old : Cluster) (s : State) :
  GetCluster (ID cluster) s = Some old ->
  GetCluster (ID cluster) (snd (UpdateCluster cluster s)) = Some cluster /\
  List.map ID (GetClusters (snd (UpdateCluster cluster s)))
  = List.map ID (GetClusters s) /\
  forall id', id' <> ID cluster ->
    GetCluster id' (snd (UpdateCluster cluster s)) = GetCluster id' s.
Proof.
  unfold GetCluster at 1, UpdateCluster, GetClusters.
  destruct (firstWithID (ID cluster) (clusters s)) as [[i c]|] eqn:Hf; [| discriminate].
  intros _. destruct (update_first cluster s _ i c Hf) as [Hg [Hm Ho]].
  rewrite save_clusters. split; [| split].
  - now rewrite (GetCluster_clusters _ _ _ (save_clusters _)).
  - exact Hm.
  - intros id' Hne. rewrite (GetCluster_clusters _ _ _ (save_clusters _)).
    now apply Ho.
Qed.

(** X20. An operation of the store that changed the memory and returned no
    error has written the file: [clusters.json] holds what the clusters in
    memory marshal to. *)
Theorem saved_on_success (cluster : Cluster) (id : gostring) (s : State) :
  (fst (AddCluster cluster s) = None -> synced (snd (AddCluster cluster s))) /\
  (fst (DeleteCluster id s) = None -> GetCluster id s <> None ->
   synced (snd (DeleteCluster id s))) /\
  (fst (UpdateCluster cluster s) = None -> GetCluster (ID cluster) s <> None ->
   synced (snd (UpdateCluster cluster s))).
Proof.
  split; [| split].
  - unfold AddCluster. destruct (strings.eqb _ _); cbn zeta; apply save_synced.
  - unfold DeleteCluster, GetCluster.
    destruct (firstWithID id (clusters s)) as [[i c]|]; [| now intros _ []].
    intros Hs _. now apply save_synced.
  - unfold UpdateCluster, GetCluster.
    destruct (firstWithID (ID cluster) (clusters s)) as [[i c]|]; [| now intros _ []].
    intros Hs _. now apply save_synced.
Qed.

End StoreFacts.

(** * The further properties at concrete inputs *)

Lemma parse_concat_witness :
  parseForwardRules (scenario ++ nl ++ ToCorefile stagingRule)
  = parseForwardRules scenario ++ parseForwardRules (ToCorefile stagingRule).
Proof.
  apply (parse_concat scenario (ToCorefile stagingRule)
           (rootZone ++ [lit "prod.svc.cluster.local:53 {"; lit "    forward . 10.96.0.10"])
           [] (lit "}"));
    vm_compute; reflexivity.
Defined.

Lemma add_then_parse_witness :
  parseForwardRules (scenario ++ nl ++ ToCorefile stagingRule ++ nl)
  = parseForwardRules scenario ++ [stagingRule].
Proof.
  apply (add_then_parse scenario stagingRule
           (rootZone ++ [lit "prod.svc.cluster.local:53 {"; lit "    forward . 10.96.0.10"])
           [] (lit "}"));
    vm_compute; reflexivity.
Defined.

Lemma AddForwardRule_appends_witness :
  exists w',
    AddForwardRule (H := plainClientGo) exampleCluster stagingRule (exampleWorld scenario)
    = (Ok tt, w') /\
    configMap (api w') =
      Ok {| Data := Some (<[CorefileName := scenario ++ nl ++ ToCorefile stagingRule ++ nl]>
                            {[ CorefileName := scenario ]}) |} /\
    requests (api w') =
      [ReqGetConfigMap; ReqGetService; ReqGetConfigMap;
       ReqUpdateConfigMap
         {| Data := Some (<[CorefileName := scenario ++ nl ++ ToCorefile stagingRule ++ nl]>
                            {[ CorefileName := scenario ]}) |}].
Proof.
  assert (Hd : default [] (({[ CorefileName := scenario ]} : gmap gostring gostring)
                           !! CorefileName) = scenario)
    by (rewrite lookup_singleton_eq; reflexivity).
  destruct (AddForwardRule_appends (H := plainClientGo) exampleCluster stagingRule
              (exampleWorld scenario)
              {| manager := {| clients := {[ ID exampleCluster := 0 ]} |};
                 constructed := 1; api := exampleApi scenario |}
              0 {| Data := Some {[ CorefileName := scenario ]} |}
              {[ CorefileName := scenario ]} {| ClusterIP := lit "10.96.0.10" |})
    as [w' [Hrun [Hcm Hreq]]].
  - unfold GetClient. cbn. rewrite lookup_empty. cbn. rewrite insert_empty. reflexivity.
  - reflexivity.
  - reflexivity.
  - reflexivity.
  - reflexivity.
  - rewrite Hd. intros r Hin. vm_compute in Hin. destruct Hin as [<- | []].
    vm_compute. discriminate.
  - rewrite Hd in Hcm, Hreq. exists w'. split; [exact Hrun |]. split; [exact Hcm |].
    exact Hreq.
Defined.


Lemma ruleOfRequest_roundtrip_witness :
  ruleOfRequest (lit "prod.svc.cluster.local") (lit "10.96.0.10") = prodRule.
Proof.
  apply (ruleOfRequest_roundtrip prodRule); vm_compute; reflexivity.
Defined.

Lemma ruleBlockOf_GetDomainBlock_witness :
  ruleBlockOf (lit "mysql.db") false = lit "mysql.db:53" /\
  ruleBlockOf (lit "mysql.db.svc.cluster.local") false = lit "mysql.db:53".
Proof.
  apply (ruleBlockOf_GetDomainBlock mysqlRule); vm_compute; reflexivity.
Defined.


Lemma GetClient_failure_witness :
  clients (manager (exampleWorld scenario)) !! ID exampleCluster = None /\
  TestConnection (H := rejectingClientGo) exampleCluster (exampleWorld scenario)
  = (Err (lit "failed to decode kubeconfig: illegal base64 data at input byte 0"),
     exampleWorld scenario).
Proof.
  destruct (GetClient_failure (H := rejectingClientGo) exampleCluster
              (exampleWorld scenario) (exampleWorld scenario)
              (lit "failed to decode kubeconfig: illegal base64 data at input byte 0"))
    as [_ [Hc [_ Ht]]].
  - vm_compute. reflexivity.
  - split; [exact Hc | exact Ht].
Defined.

Lemma UpdateCorefile_read_back_witness :
  exists info w'',
    GetCoreDNSInfo (H := plainClientGo) exampleCluster
      (snd (UpdateCorefile (H := plainClientGo) exampleCluster
              (strings.Join rootZone nl) (exampleWorld scenario)))
    = (Ok info, w'') /\
    Corefile info = strings.Join rootZone nl /\
    ForwardRules info = parseForwardRules (strings.Join rootZone nl) /\
    ServiceIP info = lit "10.96.0.10" /\
    configMap (api w'') =
      configMap (api (snd (UpdateCorefile (H := plainClientGo) exampleCluster
                             (strings.Join rootZone nl) (exampleWorld scenario)))).
Proof.
  apply (UpdateCorefile_read_back (H := plainClientGo) exampleCluster
           (strings.Join rootZone nl) (exampleWorld scenario) _
           {| ClusterIP := lit "10.96.0.10" |}).
  - vm_compute. reflexivity.
  - reflexivity.
Defined.

Lemma UpdateCorefile_nil_map_witness :
  UpdateCorefile (H := plainClientGo) exampleCluster scenario nilMapWorld
  = (Panic (lit "assignment to entry in nil map"),
     onApi (logged ReqGetConfigMap)
       (snd (GetClient (H := plainClientGo) exampleCluster nilMapWorld))) /\
  AddForwardRule (H := plainClientGo) exampleCluster stagingRule nilMapWorld
  = (Panic (lit "assignment to entry in nil map"),
     onApi (fun a => logged ReqGetConfigMap
                       (logged ReqGetService (logged ReqGetConfigMap a)))
       (snd (GetClient (H := plainClientGo) exampleCluster nilMapWorld))).
Proof.
  apply (UpdateCorefile_nil_map (H := plainClientGo) exampleCluster stagingRule scenario
           nilMapWorld _ 0 {| Data := None |} {| ClusterIP := lit "10.96.0.10" |}).
  - vm_compute. reflexivity.
  - reflexivity.
  - reflexivity.
  - reflexivity.
Defined.

Lemma UpdateCorefile_refused_witness :
  exists w',
    UpdateCorefile (H := plainClientGo) exampleCluster (strings.Join rootZone nl)
      (refusingWorld scenario)
    = (Err (lit "failed to update coredns configmap: configmaps is forbidden"), w') /\
    configMap (api w') = Ok {| Data := Some {[ CorefileName := scenario ]} |}.
Proof.
  apply (UpdateCorefile_refused (H := plainClientGo) exampleCluster
           (strings.Join rootZone nl) (refusingWorld scenario)
           (snd (GetClient (H := plainClientGo) exampleCluster (refusingWorld scenario)))
           0 {| Data := Some {[ CorefileName := scenario ]} |}
           {[ CorefileName := scenario ]} (lit "configmaps is forbidden")).
  - vm_compute. reflexivity.
  - reflexivity.
  - reflexivity.
  - reflexivity.
Defined.

Lemma GetCoreDNSInfo_reads_only_witness :
  configMap (api (snd (GetCoreDNSInfo (H := plainClientGo) exampleCluster
                         (exampleWorld scenario))))
  = configMap (api (exampleWorld scenario)) /\
  service (api (snd (GetCoreDNSInfo (H := plainClientGo) exampleCluster
                       (exampleWorld scenario))))
  = service (api (exampleWorld scenario)) /\
  exists sent,
    requests (api (snd (GetCoreDNSInfo (H := plainClientGo) exampleCluster
                          (exampleWorld scenario))))
    = requests (api (exampleWorld scenario)) ++ sent /\
    forallb isRead sent = true.
Proof.
  apply (GetCoreDNSInfo_reads_only (H := plainClientGo) exampleCluster
           (exampleWorld scenario) _
           (fst (GetCoreDNSInfo (H := plainClientGo) exampleCluster
                   (exampleWorld scenario)))).
  apply surjective_pairing.
Defined.

Lemma parsed_rules_wellformed_witness :
  In prodRule (parseForwardRules scenario) /\
  (Namespace prodRule <> [] /\
   strings.Contains (ServiceName prodRule) (lit ".") = false /\
   TargetIP prodRule <> [] /\
   ContainsSpace (TargetIP prodRule) = false).
Proof.
  assert (Hin : In prodRule (parseForwardRules scenario))
    by (vm_compute; left; reflexivity).
  split; [exact Hin |]. exact (parsed_rules_wellformed scenario prodRule Hin).
Defined.

Lemma DeleteCluster_GetCluster_witness :
  store.GetCluster (lit "c1")
    (snd (store.DeleteCluster (H := plainOs) (lit "c1") readOnlyStore)) = None /\
  store.GetCluster (lit "c2")
    (snd (store.DeleteCluster (H := plainOs) (lit "c1") readOnlyStore)) = Some otherCluster.
Proof.
  assert (Hnd : List.NoDup (List.map ID (store.clusters readOnlyStore))).
  { constructor; [intros [Hc | []]; discriminate Hc |].
    constructor; [intros [] | constructor]. }
  destruct (DeleteCluster_GetCluster (H := plainOs) (lit "c1") readOnlyStore Hnd)
    as [Hgone Hother].
  split; [exact Hgone |]. rewrite (Hother (lit "c2")); [reflexivity | discriminate].
Defined.

Lemma AddCluster_GetCluster_witness :
  store.GetClusters (snd (store.AddCluster (H := plainOs) shadowedCluster readOnlyStore))
  = [exampleCluster; otherCluster; shadowedCluster] /\
  store.GetCluster (lit "c1")
    (snd (store.AddCluster (H := plainOs) shadowedCluster readOnlyStore))
  = Some exampleCluster /\
  store.GetCluster (lit "c2")
    (snd (store.AddCluster (H := plainOs) shadowedCluster readOnlyStore))
  = Some otherCluster.
Proof.
  destruct (AddCluster_GetCluster (H := plainOs) shadowedCluster readOnlyStore)
    as [Hall [Hid Hother]]; [discriminate |].
  split; [exact Hall |]. split; [exact Hid |].
  rewrite (Hother (lit "c2")); [reflexivity | discriminate].
Defined.

Lemma UpdateCluster_GetCluster_witness :
  store.GetCluster (lit "c2")
    (snd (store.UpdateCluster (H := plainOs) renamedCluster exampleStore))
  = Some renamedCluster /\
  List.map ID (store.GetClusters
                 (snd (store.UpdateCluster (H := plainOs) renamedCluster exampleStore)))
  = [lit "c1"; lit "c2"] /\
  store.GetCluster (lit "c1")
    (snd (store.UpdateCluster (H := plainOs) renamedCluster exampleStore))
  = Some exampleCluster.
Proof.
  destruct (UpdateCluster_GetCluster (H := plainOs) renamedCluster otherCluster exampleStore)
    as [Hnew [Hids Hother]]; [reflexivity |].
  split; [exact Hnew |]. split; [exact Hids |].
  rewrite (Hother (lit "c1")); [reflexivity | discriminate].
Defined.
